(** * SpeechRecognitionManager (speechBOt/js/speech-recognition.js)

    A shallow embedding of the speech-recognition session manager and the
    properties of its transcript and analytics accounting.

    Modelling conventions.
    - A JavaScript string is a [string]: a sequence of code units below 256
      (the Latin-1 range).  Character classes, case mapping and whitespace
      are the ECMAScript ones restricted to that range.
    - Counters ([wordCount], [fillerWordCount]) are natural numbers; the
      clock ([Date.now()]) is an integer number of milliseconds.
    - Quotients of numbers are exact rationals extended with [NaN] and the
      infinities ([number]); the rounding of IEEE doubles is not modelled.
      The properties say which numbers are divided, whether the result is a
      number, and bounds that rounding keeps; the values in the sample
      sessions are exact in doubles too.
    - The engine and the clock are outside the program: every call of an
      engine control request takes the engine's reply as an argument, and
      every reading of the clock takes the value read.
    - Registered callbacks are opaque handlers that return normally; calling
      one is recorded in the trace of effects.
    - A filler phrase is matched as a literal, which is what its pattern
      means for a phrase of letters, digits and spaces ([literal_phrase]),
      as the nine default phrases are; the list of phrases is never
      assigned after construction. *)

From Stdlib Require Import Ascii String QArith Qround.
From stdpp Require Import gmap strings list.

Local Open Scope string_scope.
Local Open Scope list_scope.
Local Open Scope nat_scope.

(** ** Characters and strings *)

Module JsString.

Definition code (c : ascii) : nat := nat_of_ascii c.

Definition between (lo hi n : nat) : bool := (lo <=? n) && (n <=? hi).

(** [\w] : the class [A-Za-z0-9_]. *)
Definition is_word (c : ascii) : bool :=
  let n := code c in
  between 48 57 n || between 65 90 n || between 97 122 n || (n =? 95).

(** [\s] : TAB, LF, VT, FF, CR, SP and NBSP; the same code units are the
    ones removed by [trim]. *)
Definition is_space (c : ascii) : bool :=
  let n := code c in
  between 9 13 n || (n =? 32) || (n =? 160).

(** [String.prototype.toLowerCase] on one code unit. *)
Definition lower (c : ascii) : ascii :=
  let n := code c in
  if between 65 90 n || (between 192 222 n && negb (n =? 215))
  then ascii_of_nat (n + 32) else c.

(** Canonicalize of a case-insensitive, non-unicode pattern: the upper-case
    mapping when it is a single code unit of the same range. *)
Definition canonicalize (c : ascii) : ascii :=
  let n := code c in
  if between 97 122 n || (between 224 254 n && negb (n =? 247))
  then ascii_of_nat (n - 32) else c.

Fixpoint toLowerCase (s : string) : string :=
  match s with
  | EmptyString => EmptyString
  | String c r => String (lower c) (toLowerCase r)
  end.

Fixpoint trimStart (s : string) : string :=
  match s with
  | EmptyString => EmptyString
  | String c r => if is_space c then trimStart r else s
  end.

(** Removes trailing white space: a space is kept only when something is
    left after it. *)
Fixpoint trimEnd (s : string) : string :=
  match s with
  | EmptyString => EmptyString
  | String c r =>
      match trimEnd r with
      | EmptyString => if is_space c then EmptyString else String c EmptyString
      | r' => String c r'
      end
  end.

Definition trim (s : string) : string := trimEnd (trimStart s).

(** [s.split(/\s+/)].  [cur] is the piece being read, reversed;
    [in_sep] tells that the previous code unit belonged to a separator. *)
Fixpoint split_ws_from (cur : list ascii) (in_sep : bool) (s : string)
  : list string :=
  match s with
  | EmptyString => [string_of_list_ascii (rev cur)]
  | String c r =>
      if is_space c
      then if in_sep then split_ws_from cur true r
           else string_of_list_ascii (rev cur) :: split_ws_from [] true r
      else split_ws_from (c :: cur) false r
  end.

Definition split_ws (s : string) : list string := split_ws_from [] false s.

(** [word.replace(/[^\w\s]|_/g, "")] : drops every code unit that is
    neither a word character nor white space, and every underscore. *)
Definition kept (c : ascii) : bool :=
  (is_word c || is_space c) && negb (code c =? 95).

Fixpoint strip_punct (s : string) : string :=
  match s with
  | EmptyString => EmptyString
  | String c r => if kept c then String c (strip_punct r) else strip_punct r
  end.

(** *** Matching [new RegExp('\\b' + phrase + '\\b', 'gi')]

    The phrase is read as a literal, which is what the pattern means for
    phrases made of letters, digits and spaces. *)

(** [\b] between the code unit before a position and the one at it; a
    missing code unit (either end of the text) counts as a non-word. *)
Definition opt_word (c : option ascii) : bool :=
  match c with Some x => is_word x | None => false end.

Definition boundary (before at_ : option ascii) : bool :=
  xorb (opt_word before) (opt_word at_).

Definition head (s : string) : option ascii :=
  match s with EmptyString => None | String c _ => Some c end.

(** The literal [p] matched at the start of [s], ignoring case, followed by
    [\b]; [before] is the code unit just before the current position. *)
Fixpoint literal_then_boundary (p s : string) (before : option ascii) : bool :=
  match p with
  | EmptyString => boundary before (head s)
  | String pc pr =>
      match s with
      | EmptyString => false
      | String c r =>
          if Ascii.eqb (canonicalize pc) (canonicalize c)
          then literal_then_boundary pr r (Some c)
          else false
      end
  end.

Definition match_at (p s : string) (before : option ascii) : bool :=
  boundary before (head s) && literal_then_boundary p s before.

(** The global scan of [text.match(regex)] : [skip] code units are still
    covered by the previous match; after a match of length [n] the search
    resumes [max n 1] code units further. *)
Fixpoint scan (p : string) (before : option ascii) (skip : nat) (s : string)
  : nat :=
  match s with
  | EmptyString =>
      if (skip =? 0) && match_at p EmptyString before then 1 else 0
  | String c r =>
      match skip with
      | S k => scan p (Some c) k r
      | O =>
          if match_at p s before
          then S (scan p (Some c) (Nat.pred (String.length p)) r)
          else scan p (Some c) 0 r
      end
  end.

(** Number of elements of [text.match(regex)], 0 when it is [null]. *)
Definition match_count (p text : string) : nat := scan p None 0 text.

End JsString.

(** ** Numbers *)

(** The value of a quotient or of a rounding: a rational, [NaN] or an
    infinity. *)
Inductive number : Type :=
| NaN
| Infinity (negative : bool)
| Finite (q : Q).

Module JsNumber.

(** [a / b] for two finite operands. *)
Definition div (a b : Q) : number :=
  if Qeq_bool b 0
  then if Qeq_bool a 0 then NaN else Infinity (Qnum a <? 0)%Z
  else Finite (a / b)%Q.

(** [Math.round] : the nearest integer, halves upwards. *)
Definition round (x : number) : number :=
  match x with
  | Finite q => Finite (inject_Z (Qfloor (q + (1 # 2))%Q))
  | _ => x
  end.

(** [x || 0] : [NaN] and zero are falsy. *)
Definition or_zero (x : number) : number :=
  match x with
  | NaN => Finite 0
  | Finite q => if Qeq_bool q 0 then Finite 0 else x
  | Infinity _ => x
  end.

Definition of_nat (n : nat) : Q := inject_Z (Z.of_nat n).

End JsNumber.

(** ** Data model *)

(** A callback registered by the caller. *)
Definition Handler : Type := nat.

(** What an engine control request ([recognition.start()],
    [recognition.stop()]) does: it returns, or it throws. *)
Inductive EngineReply : Type :=
| Accepts
| Throws (error : string).

(** The analytics object handed to the analytics callback. *)
Module Analytics.
Record t : Type := mk {
  fillerWordCount : nat;
  vocabularyDiversity : number;
  wpm : number;
  duration : number
}.
End Analytics.

(** What the manager does to the outside. *)
Inductive Effect : Type :=
| EngineStart
| EngineStop
| ConsoleLog (message : string)
| ConsoleError (message detail : string)
| TranscriptUpdate (h : Handler) (finalTranscript interimTranscript : string)
| AnalyticsUpdate (h : Handler) (analytics : Analytics.t) (isFinal : bool).

(** One entry of [event.results]: the transcript of its first alternative
    and its finality flag. *)
Record SpeechResult : Type := {
  transcript : string;
  isFinal : bool
}.

Record ResultEvent : Type := {
  resultIndex : nat;
  results : list SpeechResult
}.

(** The state variables set by the constructor.  [startTime] is [None] for
    [null]; a callback is [None] for [null]. *)
Record State : Type := mkState {
  isRecording : bool;
  transcriptText : string;
  startTime : option Z;
  wordCount : nat;
  fillerWords : list string;
  fillerWordCount : nat;
  uniqueWords : gset string;
  onTranscriptUpdate : option Handler;
  onAnalyticsUpdate : option Handler
}.

(** The object: when the browser has no recognition capability the
    constructor returns before it sets [recognition] or any state variable,
    and the object only ever holds the callbacks stored by the setters. *)
Inductive Manager : Type :=
| Unsupported (onTranscript onAnalytics : option Handler)
| Supported (s : State).

(** A property read from the object. *)
Inductive value : Type :=
| VUndefined
| VBool (b : bool)
| VString (s : string).

Definition set_isRecording (b : bool) (s : State) : State :=
  mkState b (transcriptText s) (startTime s) (wordCount s) (fillerWords s)
    (fillerWordCount s) (uniqueWords s) (onTranscriptUpdate s) (onAnalyticsUpdate s).

Definition set_transcriptText (t : string) (s : State) : State :=
  mkState (isRecording s) t (startTime s) (wordCount s) (fillerWords s)
    (fillerWordCount s) (uniqueWords s) (onTranscriptUpdate s) (onAnalyticsUpdate s).

Definition set_startTime (t : option Z) (s : State) : State :=
  mkState (isRecording s) (transcriptText s) t (wordCount s) (fillerWords s)
    (fillerWordCount s) (uniqueWords s) (onTranscriptUpdate s) (onAnalyticsUpdate s).

Definition set_wordCount (n : nat) (s : State) : State :=
  mkState (isRecording s) (transcriptText s) (startTime s) n (fillerWords s)
    (fillerWordCount s) (uniqueWords s) (onTranscriptUpdate s) (onAnalyticsUpdate s).

Definition set_fillerWordCount (n : nat) (s : State) : State :=
  mkState (isRecording s) (transcriptText s) (startTime s) (wordCount s)
    (fillerWords s) n (uniqueWords s) (onTranscriptUpdate s) (onAnalyticsUpdate s).

Definition set_uniqueWords (u : gset string) (s : State) : State :=
  mkState (isRecording s) (transcriptText s) (startTime s) (wordCount s)
    (fillerWords s) (fillerWordCount s) u (onTranscriptUpdate s) (onAnalyticsUpdate s).

Definition set_onTranscriptUpdate (h : option Handler) (s : State) : State :=
  mkState (isRecording s) (transcriptText s) (startTime s) (wordCount s)
    (fillerWords s) (fillerWordCount s) (uniqueWords s) h (onAnalyticsUpdate s).

Definition set_onAnalyticsUpdate (h : option Handler) (s : State) : State :=
  mkState (isRecording s) (transcriptText s) (startTime s) (wordCount s)
    (fillerWords s) (fillerWordCount s) (uniqueWords s) (onTranscriptUpdate s) h.

(** ** The monad of method bodies

    A method body reads and writes the state variables, performs effects in
    order, and completes normally or by throwing. *)

Inductive Completion (A : Type) : Type :=
| Normal (a : A)
| Throw (error : string).
Arguments Normal {A} a.
Arguments Throw {A} error.

Definition M (A : Type) : Type := State -> Completion A * State * list Effect.

Definition ret {A} (a : A) : M A := fun s => (Normal a, s, []).

Definition bind {A B} (m : M A) (k : A -> M B) : M B :=
  fun s =>
    match m s with
    | (Normal a, s1, t1) =>
        match k a s1 with (c, s2, t2) => (c, s2, t1 ++ t2) end
    | (Throw e, s1, t1) => (Throw e, s1, t1)
    end.

(** The method bodies are written with the monad notations [x ← m; k] and
    [m;; k]. *)
#[global] Instance M_ret : MRet M := @ret.
#[global] Instance M_bind : MBind M := fun A B k m => bind m k.

Definition get : M State := fun s => (Normal s, s, []).
Definition modify (f : State -> State) : M unit := fun s => (Normal tt, f s, []).
Definition emit (e : Effect) : M unit := fun s => (Normal tt, s, [e]).
Definition throw {A} (e : string) : M A := fun s => (Throw e, s, []).

(** [try { body } catch (error) { handler }] *)
Definition try_catch (body : M unit) (handler : string -> M unit) : M unit :=
  fun s =>
    match body s with
    | (Normal a, s1, t1) => (Normal a, s1, t1)
    | (Throw e, s1, t1) =>
        match handler e s1 with (c, s2, t2) => (c, s2, t1 ++ t2) end
    end.

(** [if (cond) { body }] *)
Definition when (cond : bool) (body : M unit) : M unit :=
  if cond then body else ret tt.

(** [xs.forEach(f)] *)
Fixpoint forEach {A} (xs : list A) (f : A -> M unit) : M unit :=
  match xs with
  | [] => ret tt
  | x :: rest => f x ;; forEach rest f
  end.

(** [if (callback) { callback(...) }] *)
Definition notify (callback : option Handler) (e : Handler -> Effect) : M unit :=
  match callback with
  | Some h => emit (e h)
  | None => ret tt
  end.

(** A control request to the engine: the request goes out, then the engine
    returns or throws. *)
Definition engine_request (request : Effect) (reply : EngineReply) : M unit :=
  emit request ;;
  match reply with
  | Accepts => ret tt
  | Throws e => throw e
  end.

(** ** The program *)

(** The browser: which recognition constructors [window] offers. *)
Record Window : Type := {
  hasSpeechRecognition : bool;
  hasWebkitSpeechRecognition : bool
}.

Definition default_fillerWords : list string :=
  ["um"; "uh"; "like"; "you know"; "actually"; "basically"; "literally";
   "sort of"; "kind of"].

Definition initial_state : State :=
  {| isRecording := false;
     transcriptText := "";
     startTime := None;
     wordCount := 0;
     fillerWords := default_fillerWords;
     fillerWordCount := 0;
     uniqueWords := ∅;
     onTranscriptUpdate := None;
     onAnalyticsUpdate := None |}.

Definition constructor (window : Window) : Manager * list Effect :=
  if negb (hasWebkitSpeechRecognition window) && negb (hasSpeechRecognition window)
  then (Unsupported None None,
        [ConsoleError "Speech recognition not supported in this browser" ""])
  else (Supported initial_state, []).

(** [(Date.now() - this.startTime) / 1000 / 60] ; [null] counts as 0. *)
Definition elapsed_minutes (start : option Z) (now : Z) : Q :=
  (inject_Z (now - default 0%Z start) / 1000 / 60)%Q.

(** The analytics object built in [_processTranscript] and in the [onend]
    listener. *)
Definition snapshot (s : State) (now : Z) : Analytics.t :=
  let duration := elapsed_minutes (startTime s) now in
  let wpm := JsNumber.round (JsNumber.div (JsNumber.of_nat (wordCount s)) duration) in
  {| Analytics.fillerWordCount := fillerWordCount s;
     Analytics.vocabularyDiversity :=
       JsNumber.or_zero
         (JsNumber.div (JsNumber.of_nat (size (uniqueWords s)))
                       (JsNumber.of_nat (wordCount s)));
     Analytics.wpm := wpm;
     Analytics.duration := JsNumber.round (Finite (duration * 60)%Q) |}.

(** [if (this.startTime)] : [null] and 0 are falsy. *)
Definition truthy_time (t : option Z) : bool :=
  match t with
  | Some n => negb (n =? 0)%Z
  | None => false
  end.

Definition _processTranscript (transcript : string) (now : Z) : M unit :=
  let words := JsString.split_ws (JsString.toLowerCase (JsString.trim transcript)) in
  modify (fun s => set_wordCount (wordCount s + length words) s);;
  forEach words (fun word =>
    let cleanWord := JsString.strip_punct word in
    when (0 <? String.length cleanWord)
      (modify (fun s => set_uniqueWords (uniqueWords s ∪ {[cleanWord]}) s)));;
  this ← get;
  forEach (fillerWords this) (fun fillerWord =>
    let matches := JsString.match_count fillerWord transcript in
    when (0 <? matches)
      (modify (fun s => set_fillerWordCount (fillerWordCount s + matches) s)));;
  this ← get;
  when (truthy_time (startTime this))
    (notify (onAnalyticsUpdate this)
       (fun h => AnalyticsUpdate h (snapshot this now) false)).

(** The loop of the [onresult] listener over [event.results] from index [i];
    [now i] is the clock read while result [i] is processed. *)
Fixpoint onresult_loop (rs : list SpeechResult) (i : nat) (now : nat -> Z)
    (finalTranscript interimTranscript : string) : M (string * string) :=
  match rs with
  | [] => ret (finalTranscript, interimTranscript)
  | r :: rest =>
      if isFinal r
      then _processTranscript (transcript r) (now i);;
           onresult_loop rest (S i) now
             (finalTranscript +:+ transcript r) interimTranscript
      else onresult_loop rest (S i) now
             finalTranscript (interimTranscript +:+ transcript r)
  end.

Definition onresult (event : ResultEvent) (now : nat -> Z) : M unit :=
  texts ← onresult_loop (drop (resultIndex event) (results event))
             (resultIndex event) now "" "";
  modify (set_transcriptText (fst texts));;
  this ← get;
  notify (onTranscriptUpdate this)
    (fun h => TranscriptUpdate h (fst texts) (snd texts)).

Definition start_body (reply : EngineReply) (now : Z) : M unit :=
  try_catch
    (modify (set_isRecording true);;
     engine_request EngineStart reply;;
     modify (set_startTime (Some now));;
     modify (set_wordCount 0);;
     modify (set_fillerWordCount 0);;
     modify (set_uniqueWords ∅);;
     emit (ConsoleLog "Speech recognition started"))
    (fun error => emit (ConsoleError "Error starting speech recognition:" error)).

Definition stop_body (reply : EngineReply) : M unit :=
  try_catch
    (modify (set_isRecording false);;
     engine_request EngineStop reply;;
     emit (ConsoleLog "Speech recognition stopped"))
    (fun error => emit (ConsoleError "Error stopping speech recognition:" error)).

Definition onerror (error : string) (reply : EngineReply) : M unit :=
  emit (ConsoleError "Speech recognition error:" error);;
  stop_body reply.

Definition onend (reply : EngineReply) (now : Z) : M unit :=
  this ← get;
  if isRecording this
  then engine_request EngineStart reply
  else notify (onAnalyticsUpdate this)
         (fun h => AnalyticsUpdate h (snapshot this now) true).

(** A method or listener run on the object.  The listeners exist only on an
    object that has a recognition engine. *)
Definition on_supported (body : M unit) (m : Manager)
  : Completion unit * Manager * list Effect :=
  match m with
  | Unsupported _ _ => (Normal tt, m, [])
  | Supported s =>
      match body s with (c, s', t) => (c, Supported s', t) end
  end.

(** [start()] and [stop()] begin with [if (!this.recognition) return;]. *)
Definition start (reply : EngineReply) (now : Z) (m : Manager) :=
  on_supported (start_body reply now) m.

Definition stop (reply : EngineReply) (m : Manager) :=
  on_supported (stop_body reply) m.

Definition setTranscriptUpdateCallback (callback : option Handler) (m : Manager)
  : Manager :=
  match m with
  | Unsupported _ a => Unsupported callback a
  | Supported s => Supported (set_onTranscriptUpdate callback s)
  end.

Definition setAnalyticsUpdateCallback (callback : option Handler) (m : Manager)
  : Manager :=
  match m with
  | Unsupported t _ => Unsupported t callback
  | Supported s => Supported (set_onAnalyticsUpdate callback s)
  end.

Definition getTranscript (m : Manager) : value :=
  match m with
  | Unsupported _ _ => VUndefined
  | Supported s => VString (transcriptText s)
  end.

Definition isListening (m : Manager) : value :=
  match m with
  | Unsupported _ _ => VUndefined
  | Supported s => VBool (isRecording s)
  end.

(** ** Sessions as sequences of events *)

(** What happens to the object: a call by the owner or an event delivered
    by the engine, with what the engine and the clock answer during it. *)
Inductive Event : Type :=
| CallStart (reply : EngineReply) (now : Z)
| CallStop (reply : EngineReply)
| CallSetTranscriptUpdateCallback (callback : option Handler)
| CallSetAnalyticsUpdateCallback (callback : option Handler)
| EngineResult (event : ResultEvent) (now : nat -> Z)
| EngineError (error : string) (reply : EngineReply)
| EngineEnd (reply : EngineReply) (now : Z).

Definition step (e : Event) (m : Manager)
  : Completion unit * Manager * list Effect :=
  match e with
  | CallStart reply now => start reply now m
  | CallStop reply => stop reply m
  | CallSetTranscriptUpdateCallback cb =>
      (Normal tt, setTranscriptUpdateCallback cb m, [])
  | CallSetAnalyticsUpdateCallback cb =>
      (Normal tt, setAnalyticsUpdateCallback cb m, [])
  | EngineResult event now => on_supported (onresult event now) m
  | EngineError error reply => on_supported (onerror error reply) m
  | EngineEnd reply now => on_supported (onend reply now) m
  end.

Definition state_of (r : Completion unit * Manager * list Effect) : Manager :=
  snd (fst r).

Definition trace_of (r : Completion unit * Manager * list Effect) : list Effect :=
  snd r.

Definition completion_of (r : Completion unit * Manager * list Effect)
  : Completion unit := fst (fst r).

(** The events are processed one after the other, each to completion; an
    exception that leaves a listener ends that listener only. *)
Fixpoint run (es : list Event) (m : Manager) : Manager * list Effect :=
  match es with
  | [] => (m, [])
  | e :: rest =>
      let r := step e m in
      let r' := run rest (state_of r) in
      (fst r', trace_of r ++ snd r')
  end.

(** The analytics notifications of a trace. *)
Definition analytics_updates (t : list Effect) : list (Analytics.t * bool) :=
  omap (fun e => match e with
                 | AnalyticsUpdate _ a f => Some (a, f)
                 | _ => None
                 end) t.

(** The start requests sent to the engine in a trace. *)
Definition engine_starts (t : list Effect) : nat :=
  length (omap (fun e => match e with
                         | EngineStart => Some tt
                         | _ => None
                         end) t).

(** ** Sample runs *)

Definition browser : Window :=
  {| hasSpeechRecognition := false; hasWebkitSpeechRecognition := true |}.

Definition no_browser_support : Window :=
  {| hasSpeechRecognition := false; hasWebkitSpeechRecognition := false |}.

Definition fresh : Manager := fst (constructor browser).

Definition final (t : string) : SpeechResult := {| transcript := t; isFinal := true |}.
Definition interim (t : string) : SpeechResult := {| transcript := t; isFinal := false |}.

Definition sample_fragment : string := "um I think this is like really great".

(** The object has no recognition engine. *)
Definition is_unsupported (m : Manager) : bool :=
  match m with Unsupported _ _ => true | Supported _ => false end.

(** * Closed forms

    What the listeners compute, written as plain functions of the state;
    each is proved equal to the listener it describes ([_processTranscript_eq],
    [onresult_loop_eq], [onresult_eq], [step_supported]). *)

(** ** The accounting of a final fragment *)

(** The words of a fragment: [transcript.trim().toLowerCase().split(/\s+/)]. *)
Definition words_of (transcript : string) : list string :=
  JsString.split_ws (JsString.toLowerCase (JsString.trim transcript)).

(** One round of the loop over the words. *)
Definition add_word (u : gset string) (word : string) : gset string :=
  let cleanWord := JsString.strip_punct word in
  if 0 <? String.length cleanWord then u ∪ {[cleanWord]} else u.

(** One round of the loop over the filler phrases. *)
Definition add_filler (transcript : string) (n : nat) (fillerWord : string) : nat :=
  let matches := JsString.match_count fillerWord transcript in
  if 0 <? matches then n + matches else n.

(** The state after [_processTranscript(transcript)]. *)
Definition accounted (transcript : string) (s : State) : State :=
  mkState (isRecording s) (transcriptText s) (startTime s)
    (wordCount s + length (words_of transcript)) (fillerWords s)
    (foldl (add_filler transcript) (fillerWordCount s) (fillerWords s))
    (foldl add_word (uniqueWords s) (words_of transcript))
    (onTranscriptUpdate s) (onAnalyticsUpdate s).

(** The notification at the end of [_processTranscript]. *)
Definition interim_notification (s : State) (now : Z) : list Effect :=
  if truthy_time (startTime s)
  then match onAnalyticsUpdate s with
       | Some h => [AnalyticsUpdate h (snapshot s now) false]
       | None => []
       end
  else [].

(** ** A batch of results *)

(** The transcripts of the final, or of the interim, results of a list. *)
Fixpoint transcripts_of (wanted : bool) (rs : list SpeechResult) : list string :=
  match rs with
  | [] => []
  | r :: rest =>
      if Bool.eqb (isFinal r) wanted
      then transcript r :: transcripts_of wanted rest
      else transcripts_of wanted rest
  end.

Definition join (ts : list string) : string := foldr String.append "" ts.

(** The results an event brings: those from [event.resultIndex] on. *)
Definition batch (event : ResultEvent) : list SpeechResult :=
  drop (resultIndex event) (results event).

Definition batch_finals (event : ResultEvent) : list string :=
  transcripts_of true (batch event).

(** The two texts built by the [onresult] listener. *)
Definition batch_final_text (event : ResultEvent) : string :=
  join (batch_finals event).

Definition batch_interim_text (event : ResultEvent) : string :=
  join (transcripts_of false (batch event)).

(** The state after the final fragments [ts] were accounted in order. *)
Definition accounted_all (ts : list string) (s : State) : State :=
  foldl (fun s t => accounted t s) s ts.

(** The analytics notifications sent while the loop runs over [rs]. *)
Fixpoint loop_trace (rs : list SpeechResult) (i : nat) (now : nat -> Z)
    (s : State) : list Effect :=
  match rs with
  | [] => []
  | r :: rest =>
      if isFinal r
      then interim_notification (accounted (transcript r) s) (now i)
           ++ loop_trace rest (S i) now (accounted (transcript r) s)
      else loop_trace rest (S i) now s
  end.

(** The state and the trace of the [onresult] listener. *)
Definition after_batch (event : ResultEvent) (s : State) : State :=
  set_transcriptText (batch_final_text event)
    (accounted_all (batch_finals event) s).

Definition transcript_notification (event : ResultEvent) (s : State)
  : list Effect :=
  match onTranscriptUpdate s with
  | Some h => [TranscriptUpdate h (batch_final_text event) (batch_interim_text event)]
  | None => []
  end.

(** * Statements

    The notions the properties are stated with. *)

(** The final analytics notifications of a trace. *)
Definition final_analytics (t : list Effect) : list Analytics.t :=
  omap (fun p : Analytics.t * bool => if snd p then Some (fst p) else None)
       (analytics_updates t).

(** The total of the matches of the filler phrases in a fragment. *)
Definition filler_matches (ps : list string) (transcript : string) : nat :=
  sum_list (map (fun p => JsString.match_count p transcript) ps).

(** What C6 asks of the object after [start()]. *)
Definition freshly_started (m : Manager) : Prop :=
  exists s, m = Supported s /\
    wordCount s = 0 /\ fillerWordCount s = 0 /\ uniqueWords s = ∅ /\
    isRecording s = true.

(** A session that has accounted one final fragment. *)
Definition one_fragment_in : Manager :=
  fst (run [CallStart Accepts 1000%Z;
            EngineResult {| resultIndex := 0; results := [final "hello"] |}
                         (fun _ => 2000%Z)] fresh).

(** What C2 asks to be the same before and after a failed call. *)
Definition same_observable_state (s s' : State) : Prop :=
  isRecording s' = isRecording s /\
  startTime s' = startTime s /\
  wordCount s' = wordCount s /\
  fillerWordCount s' = fillerWordCount s /\
  uniqueWords s' = uniqueWords s.

(** ** The filler phrases of a fragment *)

(** Following the words of the specification: a configured phrase occurs in
    a text as a whole word, whatever the case of its letters, at every
    position where the text reads as the phrase and no word character
    stands just before or just after. *)
Module SpecFiller.

Fixpoint fold_case (s : string) : string :=
  match s with
  | EmptyString => EmptyString
  | String c r => String (JsString.canonicalize c) (fold_case r)
  end.

Definition word_at (text : string) (i : option nat) : bool :=
  match i with
  | Some k => JsString.opt_word (String.get k text)
  | None => false
  end.

Definition occurs_at (p text : string) (i : nat) : bool :=
  let n := String.length p in
  (i + n <=? String.length text)
  && String.eqb (fold_case (String.substring i n text)) (fold_case p)
  && negb (word_at text (if i =? 0 then None else Some (i - 1)))
  && negb (word_at text (Some (i + n))).

Definition whole_word_occurrences (p text : string) : nat :=
  length (List.filter (occurs_at p text) (seq 0 (S (String.length text)))).

Definition filler_total (ps : list string) (text : string) : nat :=
  sum_list (map (fun p => whole_word_occurrences p text) ps).

End SpecFiller.

Definition state_after {A} (r : Completion A * State * list Effect) : State :=
  snd (fst r).

(** ** The state after an event

    The closed form of [step] on an object with a recognition engine. *)

Definition next_state (e : Event) (s : State) : State :=
  match e with
  | CallStart Accepts now =>
      set_uniqueWords ∅
        (set_fillerWordCount 0
           (set_wordCount 0 (set_startTime (Some now) (set_isRecording true s))))
  | CallStart (Throws _) _ => set_isRecording true s
  | CallStop _ => set_isRecording false s
  | CallSetTranscriptUpdateCallback cb => set_onTranscriptUpdate cb s
  | CallSetAnalyticsUpdateCallback cb => set_onAnalyticsUpdate cb s
  | EngineResult event _ => after_batch event s
  | EngineError _ _ => set_isRecording false s
  | EngineEnd _ _ => s
  end.

Definition states_after (es : list Event) (s : State) : State :=
  foldl (fun s e => next_state e s) s es.

(** ** The transcript *)

(** Following the words of C1: the final texts of all the batches of a
    session, one after the other. *)
Fixpoint spec_accumulated_transcript (es : list Event) : string :=
  match es with
  | [] => ""
  | EngineResult event _ :: rest =>
      batch_final_text event +:+ spec_accumulated_transcript rest
  | _ :: rest => spec_accumulated_transcript rest
  end.

(** What the listener keeps: the final text of the last batch. *)
Definition last_batch_text (es : list Event) (before : string) : string :=
  foldl (fun t e => match e with
                    | EngineResult event _ => batch_final_text event
                    | _ => t
                    end) before es.

(** The engine reports "hello" as final, then " world" as final: the second
    event carries both results and points at the new one. *)
Definition two_batches : list Event :=
  [CallStart Accepts 1000%Z;
   EngineResult {| resultIndex := 0; results := [final "hello"] |}
                (fun _ => 2000%Z);
   EngineResult {| resultIndex := 1; results := [final "hello"; final " world"] |}
                (fun _ => 3000%Z)].

(** ** The counters within a session *)

(** The counters of [s'] are those of [s] or larger. *)
Definition grows (s s' : State) : Prop :=
  wordCount s <= wordCount s' /\
  uniqueWords s ⊆ uniqueWords s' /\
  fillerWordCount s <= fillerWordCount s'.

(** A call of [start()] that the engine accepts.  A call that the engine
    rejects is not one: it sets the active flag and nothing else. *)
Definition is_accepted_start (e : Event) : bool :=
  match e with
  | CallStart Accepts _ => true
  | _ => false
  end.

(** What C8 asks of the counters after a call of [start()]. *)
Definition counters_reset (m : Manager) : Prop :=
  exists s, m = Supported s /\
    wordCount s = 0 /\ uniqueWords s = ∅ /\ fillerWordCount s = 0.

(** A session that has accounted the sample fragment. *)
Definition sample_fragment_in : Manager :=
  fst (run [CallStart Accepts 1000%Z;
            EngineResult {| resultIndex := 0; results := [final sample_fragment] |}
                         (fun _ => 31000%Z)] fresh).

(** A session in which the engine stops on its own, a fragment arrives, a
    second [start()] is rejected and the owner stops. *)
Definition busy_session : list Event :=
  [EngineEnd Accepts 1500%Z;
   EngineResult {| resultIndex := 0; results := [interim "um"; final sample_fragment] |}
                (fun _ => 2000%Z);
   CallStart (Throws "InvalidStateError") 2500%Z;
   EngineError "network" Accepts;
   CallStop Accepts].

(** ** The end of a session *)



(** ** Vocabulary diversity *)

(** The pieces of a fragment before they are lowercased:
    [transcript.trim().split(/\s+/)]. *)
Definition raw_words (transcript : string) : list string :=
  JsString.split_ws (JsString.trim transcript).

(** Following the words of the specification, without the string functions
    of the program: the tokens of a fragment are its maximal runs of code
    units that are not white space; a token is normalized by lowercasing
    its letters and dropping every code unit that is not a letter or a digit
    of the basic alphabet. *)
Module SpecVocabulary.

(** TAB, LF, VT, FF, CR, SP and NBSP. *)
Definition white_codes : list nat := [9; 10; 11; 12; 13; 32; 160].

Definition white (c : ascii) : bool :=
  existsb (Nat.eqb (nat_of_ascii c)) white_codes.

(** The run read so far, if any; [cur] holds it reversed. *)
Definition emit (cur : list ascii) : list string :=
  match cur with
  | [] => []
  | _ :: _ => [string_of_list_ascii (rev cur)]
  end.

Fixpoint tokens_from (cur : list ascii) (s : string) : list string :=
  match s with
  | EmptyString => emit cur
  | String c r =>
      if white c then emit cur ++ tokens_from [] r else tokens_from (c :: cur) r
  end.

Definition tokens (fragment : string) : list string := tokens_from [] fragment.

Definition upper_letters : string := "ABCDEFGHIJKLMNOPQRSTUVWXYZ".
Definition lower_letters : string := "abcdefghijklmnopqrstuvwxyz".
Definition digits : string := "0123456789".

(** The code unit of [to] at the place of [c] in [from]; [c] itself when it
    is not in [from]. *)
Fixpoint translate (c : ascii) (from to : string) : ascii :=
  match from, to with
  | String a f, String b t => if Ascii.eqb c a then b else translate c f t
  | _, _ => c
  end.

Definition lowercase (c : ascii) : ascii := translate c upper_letters lower_letters.

Fixpoint occurs (c : ascii) (s : string) : bool :=
  match s with
  | EmptyString => false
  | String a r => Ascii.eqb c a || occurs c r
  end.

Definition letter_or_digit (c : ascii) : bool :=
  occurs c lower_letters || occurs c upper_letters || occurs c digits.

Fixpoint normalize (token : string) : string :=
  match token with
  | EmptyString => EmptyString
  | String c r =>
      if letter_or_digit c then String (lowercase c) (normalize r) else normalize r
  end.






(** A fragment without a token: empty, or white space only. *)
Definition blank (fragment : string) : bool :=
  match tokens fragment with
  | [] => true
  | _ :: _ => false
  end.



End SpecVocabulary.



(** The fragments accounted since the last accepted [start()], or since
    construction. *)
Definition history_step (h : list string) (e : Event) : list string :=
  match e with
  | CallStart Accepts _ => []
  | EngineResult event _ => h ++ batch_finals event
  | _ => h
  end.

Definition fragments_since_start (es : list Event) : list string :=
  foldl history_step [] es.


Definition has_callback (c : option Handler) : bool :=
  match c with Some _ => true | None => false end.

Definition notifies_interim (s : State) : bool :=
  truthy_time (startTime s) && has_callback (onAnalyticsUpdate s).




(** * Further statements *)

(** The transcript notifications of a trace. *)
Definition transcript_updates (t : list Effect) : list (Handler * string * string) :=
  omap (fun e => match e with
                 | TranscriptUpdate h f i => Some (h, f, i)
                 | _ => None
                 end) t.

(** The stop requests sent to the engine in a trace. *)
Definition engine_stops (t : list Effect) : nat :=
  length (omap (fun e => match e with
                         | EngineStop => Some tt
                         | _ => None
                         end) t).

(** The callbacks in place after a sequence of calls and events: the ones
    of the last call of each setter. *)
Definition analytics_callback_after (es : list Event) (before : option Handler)
  : option Handler :=
  foldl (fun cb e => match e with
                     | CallSetAnalyticsUpdateCallback c => c
                     | _ => cb
                     end) before es.

Definition transcript_callback_after (es : list Event) (before : option Handler)
  : option Handler :=
  foldl (fun cb e => match e with
                     | CallSetTranscriptUpdateCallback c => c
                     | _ => cb
                     end) before es.

(** A notification goes to the callback in place. *)
Definition delivered_to (analytics transcript : option Handler) (e : Effect) : Prop :=
  match e with
  | AnalyticsUpdate h _ _ => analytics = Some h
  | TranscriptUpdate h _ _ => transcript = Some h
  | _ => True
  end.

(** No result of the batch is final. *)
Definition no_final_result (event : ResultEvent) : bool :=
  forallb (fun r => negb (isFinal r)) (batch event).

(** The words of a text read as a reader does: the maximal runs of code
    units that are not white space.  [after_space] tells that the code unit
    before was white space, or that the text starts here. *)
Fixpoint runs_from (after_space : bool) (s : string) : nat :=
  match s with
  | EmptyString => 0
  | String c r =>
      if JsString.is_space c then runs_from true r
      else (if after_space then 1 else 0) + runs_from false r
  end.

Definition word_runs (s : string) : nat := runs_from true s.

(** The text ends in white space; an empty text ends as it began. *)
Fixpoint ends_in_space (after_space : bool) (s : string) : bool :=
  match s with
  | EmptyString => after_space
  | String c r => ends_in_space (JsString.is_space c) r
  end.

(** Every code unit of the string satisfies [p]. *)
Fixpoint all_chars (p : ascii -> bool) (s : string) : bool :=
  match s with
  | EmptyString => true
  | String c r => p c && all_chars p r
  end.

(** A digit or a lowercase letter of the basic alphabet. *)
Definition is_lower_alnum (c : ascii) : bool :=
  let n := JsString.code c in
  JsString.between 48 57 n || JsString.between 97 122 n.

Definition clean_word (w : string) : bool :=
  (0 <? String.length w) && all_chars is_lower_alnum w.

(** Not white space and not an uppercase letter of the basic alphabet. *)
Definition token_char (c : ascii) : bool :=
  negb (JsString.is_space c) && negb (JsString.between 65 90 (JsString.code c)).

(** The end events of a list of engine replies and clock readings. *)
Definition end_events (ends : list (EngineReply * Z)) : list Event :=
  map (fun p => EngineEnd (fst p) (snd p)) ends.

(** The milliseconds between the start time and [now]; [null] counts as 0. *)
Definition elapsed_ms (s : State) (now : Z) : Z := (now - default 0 (startTime s))%Z.

(** A code unit that stands for itself in a regular expression: a letter or
    a digit of the basic alphabet, or a space. *)
Definition literal_char (c : ascii) : bool :=
  let n := JsString.code c in
  JsString.between 48 57 n || JsString.between 65 90 n
  || JsString.between 97 122 n || (n =? 32).

(** A phrase whose pattern [\bphrase\b] is the phrase read as a literal, as
    [JsString.match_count] reads it; each default phrase is one. *)
Definition literal_phrase (p : string) : bool := all_chars literal_char p.

(** The number of positions of a text at which the pattern of a phrase
    matches, overlapping or not; [before] is the code unit before the
    text. *)
Fixpoint matching_positions (p : string) (before : option ascii) (s : string)
  : nat :=
  (if JsString.match_at p s before then 1 else 0)
  + match s with
    | EmptyString => 0
    | String c r => matching_positions p (Some c) r
    end.

(** The pattern matches at none of the next [k] positions. *)
Fixpoint quiet (p : string) (before : option ascii) (k : nat) (s : string) : Prop :=
  match k with
  | O => True
  | S k' =>
      JsString.match_at p s before = false /\
      match s with
      | EmptyString => True
      | String c r => quiet p (Some c) k' r
      end
  end.

(** No occurrence of the phrase [String p0 _] can begin inside another:
    each later code unit of the phrase either follows a word character or
    differs from the first one, whatever the case.  [pb] is the code unit
    of the phrase before [q]. *)
Fixpoint no_restart_from (p0 pb : ascii) (q : string) : bool :=
  match q with
  | EmptyString => true
  | String qc q' =>
      (JsString.is_word pb
       || negb (Ascii.eqb (JsString.canonicalize p0) (JsString.canonicalize qc)))
      && no_restart_from p0 qc q'
  end.

(** The last code unit of [String c q]. *)
Fixpoint last_char (c : ascii) (q : string) : ascii :=
  match q with
  | EmptyString => c
  | String c' q' => last_char c' q'
  end.

(** A phrase that begins and ends with a word character and cannot overlap
    itself. *)
Definition whole_word_phrase (p : string) : bool :=
  match p with
  | EmptyString => false
  | String p0 q =>
      JsString.is_word p0 && JsString.is_word (last_char p0 q)
      && no_restart_from p0 p0 q
  end.

(** [SpecFiller.occurs_at] for a text that follows the code unit
    [before]. *)
Definition occurs_after (before : option ascii) (p text : string) (i : nat) : bool :=
  let n := String.length p in
  (i + n <=? String.length text)
  && String.eqb (SpecFiller.fold_case (String.substring i n text))
                (SpecFiller.fold_case p)
  && negb (if i =? 0 then JsString.opt_word before
           else SpecFiller.word_at text (Some (i - 1)))
  && negb (SpecFiller.word_at text (Some (i + n))).

(** The occurrences counted position by position, from the start of the
    text on. *)
Fixpoint occurrences_after (before : option ascii) (p s : string) : nat :=
  (if occurs_after before p s 0 then 1 else 0)
  + match s with
    | EmptyString => 0
    | String c r => occurrences_after (Some c) p r
    end.

(** The lifecycle as a two-state machine: the active flag after an
    event. *)
Definition flag_after (active : bool) (e : Event) : bool :=
  match e with
  | CallStart _ _ => true
  | CallStop _ => false
  | EngineError _ _ => false
  | _ => active
  end.

(** The start time after an event: the clock of an accepted [start()]. *)
Definition start_time_after (t : option Z) (e : Event) : option Z :=
  match e with
  | CallStart Accepts now => Some now
  | _ => t
  end.

(** The control requests the machine sends to the engine on an event. *)
Definition requests_on (active : bool) (e : Event) : list Effect :=
  match e with
  | CallStart _ _ => [EngineStart]
  | CallStop _ => [EngineStop]
  | EngineError _ _ => [EngineStop]
  | EngineEnd _ _ => if active then [EngineStart] else []
  | _ => []
  end.

Fixpoint requests_of (active : bool) (es : list Event) : list Effect :=
  match es with
  | [] => []
  | e :: rest => requests_on active e ++ requests_of (flag_after active e) rest
  end.

(** The control requests of a trace, in order. *)
Definition engine_requests (t : list Effect) : list Effect :=
  List.filter (fun e => match e with
                        | EngineStart | EngineStop => true
                        | _ => false
                        end) t.

(** * Properties *)

(** ** The string functions on sample texts *)

Example split_ws_plain :
  JsString.split_ws "um i think" = ["um"; "i"; "think"].
Proof. reflexivity. Qed.

Example split_ws_empty : JsString.split_ws "" = [""].
Proof. reflexivity. Qed.

Example split_ws_edges : JsString.split_ws " a  b " = [""; "a"; "b"; ""].
Proof. reflexivity. Qed.

Example trim_both : JsString.trim "  Hello, World  " = "Hello, World".
Proof. reflexivity. Qed.

Example strip_punct_word : JsString.strip_punct "it's_ok!" = "itsok".
Proof. reflexivity. Qed.

Example match_count_like :
  JsString.match_count "like" "Like, I like likely unlike LIKE" = 3.
Proof. reflexivity. Qed.

Example match_count_phrase :
  JsString.match_count "you know" "You  know, you know" = 1.
Proof. reflexivity. Qed.

(** ** Sample sessions *)

(** One fragment, half a minute into the session: 8 words, all distinct,
    2 fillers, 16 words per minute. *)
Example sample_session_trace :
  snd (run [CallSetAnalyticsUpdateCallback (Some 1);
            CallStart Accepts 1000%Z;
            EngineResult {| resultIndex := 0; results := [final sample_fragment] |}
                         (fun _ => 31000%Z)] fresh)
  = [EngineStart; ConsoleLog "Speech recognition started";
     AnalyticsUpdate 1
       {| Analytics.fillerWordCount := 2;
          Analytics.vocabularyDiversity := Finite (8 # 8);
          Analytics.wpm := Finite 16;
          Analytics.duration := Finite 30 |} false].
Proof. vm_compute. reflexivity. Qed.

(** Repeated words and punctuation: 4 words, 2 of them distinct. *)
Example repeated_words_state :
  let s := state_after (_processTranscript "The cat, the CAT!" 0%Z initial_state) in
  wordCount s = 4 /\ elements (uniqueWords s) = ["cat"; "the"] /\
  Analytics.vocabularyDiversity (snapshot s 0%Z) = Finite (2 # 4).
Proof. vm_compute. repeat split. Qed.

(** A fragment of white space counts as one word and adds no vocabulary. *)
Example blank_fragment_state :
  let s := state_after (_processTranscript "  " 0%Z initial_state) in
  wordCount s = 1 /\ uniqueWords s = ∅ /\
  Analytics.vocabularyDiversity (snapshot s 0%Z) = Finite 0.
Proof. vm_compute. repeat split. Qed.

(** A session that ends before any fragment reports diversity 0. *)
Example empty_session_final_analytics :
  analytics_updates
    (snd (run [CallSetAnalyticsUpdateCallback (Some 1);
               CallStart Accepts 1000%Z; CallStop Accepts;
               EngineEnd Accepts 61000%Z] fresh))
  = [({| Analytics.fillerWordCount := 0;
         Analytics.vocabularyDiversity := Finite 0;
         Analytics.wpm := Finite 0;
         Analytics.duration := Finite 60 |}, true)].
Proof. vm_compute. reflexivity. Qed.

(** A batch of interim results alone empties the kept transcript. *)
Example interim_batch_clears_transcript :
  getTranscript
    (fst (run [CallStart Accepts 1000%Z;
               EngineResult {| resultIndex := 0; results := [final "hello"] |}
                            (fun _ => 2000%Z);
               EngineResult {| resultIndex := 1;
                               results := [final "hello"; interim " wor"] |}
                            (fun _ => 3000%Z)] fresh))
  = VString "".
Proof. reflexivity. Qed.

(** ** The lifecycle calls on a supported object *)

Section Lifecycle.

Variable s : State.

Lemma start_body_accepts now :
  start_body Accepts now s =
    (Normal tt,
     set_uniqueWords ∅
       (set_fillerWordCount 0
          (set_wordCount 0 (set_startTime (Some now) (set_isRecording true s)))),
     [EngineStart; ConsoleLog "Speech recognition started"]).
Proof. reflexivity. Qed.

Lemma start_body_throws error now :
  start_body (Throws error) now s =
    (Normal tt, set_isRecording true s,
     [EngineStart; ConsoleError "Error starting speech recognition:" error]).
Proof. reflexivity. Qed.

Lemma stop_body_accepts :
  stop_body Accepts s =
    (Normal tt, set_isRecording false s,
     [EngineStop; ConsoleLog "Speech recognition stopped"]).
Proof. reflexivity. Qed.

Lemma stop_body_throws error :
  stop_body (Throws error) s =
    (Normal tt, set_isRecording false s,
     [EngineStop; ConsoleError "Error stopping speech recognition:" error]).
Proof. reflexivity. Qed.

Lemma stop_body_state reply :
  snd (fst (stop_body reply s)) = set_isRecording false s.
Proof. destruct reply; reflexivity. Qed.

Lemma stop_body_silent reply :
  analytics_updates (snd (stop_body reply s)) = [].
Proof. destruct reply; reflexivity. Qed.

Lemma onend_recording reply now :
  isRecording s = true ->
  onend reply now s =
    (match reply with Accepts => Normal tt | Throws e => Throw e end,
     s, [EngineStart]).
Proof.
  intros Hrec. unfold onend, mbind, M_bind, bind, get. rewrite Hrec.
  destruct reply; reflexivity.
Qed.

Lemma onend_stopped reply now :
  isRecording s = false ->
  onend reply now s =
    (Normal tt, s,
     match onAnalyticsUpdate s with
     | Some h => [AnalyticsUpdate h (snapshot s now) true]
     | None => []
     end).
Proof.
  intros Hrec. unfold onend, mbind, M_bind, bind, get. rewrite Hrec.
  unfold notify. destruct (onAnalyticsUpdate s); reflexivity.
Qed.

End Lifecycle.

(** ** An object without recognition

    It is never changed by a call of [start] or [stop] or by an engine
    event, and stays without recognition under the setters. *)

Lemma step_unsupported e m :
  is_unsupported m = true ->
  is_unsupported (state_of (step e m)) = true /\ trace_of (step e m) = [].
Proof. destruct m, e; simpl; intros; try discriminate; auto. Qed.

Lemma run_unsupported es : forall m,
  is_unsupported m = true ->
  is_unsupported (fst (run es m)) = true /\ snd (run es m) = [].
Proof.
  induction es as [|e es IH]; intros m Hm; simpl; [auto|].
  destruct (step_unsupported e m Hm) as [H1 H2].
  destruct (IH _ H1) as [H3 H4]. rewrite H2, H4. auto.
Qed.

(** C10. In a browser without a recognition capability the constructor
    returns before any state variable is set: [start()] and [stop()] return
    without effect, and [isListening()] and [getTranscript()] return
    [undefined] (not [false], not the empty string), also after any further
    calls. *)
Theorem unsupported_accessors_undefined (w : Window) :
  hasSpeechRecognition w = false ->
  hasWebkitSpeechRecognition w = false ->
  let m := fst (constructor w) in
  (forall reply now, start reply now m = (Normal tt, m, [])) /\
  (forall reply, stop reply m = (Normal tt, m, [])) /\
  isListening m = VUndefined /\ isListening m <> VBool false /\
  getTranscript m = VUndefined /\ getTranscript m <> VString "" /\
  (forall es, isListening (fst (run es m)) = VUndefined /\
              getTranscript (fst (run es m)) = VUndefined).
Proof.
  intros H1 H2. unfold constructor. rewrite H1, H2. simpl.
  repeat split; try reflexivity; try discriminate.
  - destruct (run_unsupported es (Unsupported None None) eq_refl) as [H _].
    destruct (fst (run es _)); [reflexivity | discriminate].
  - destruct (run_unsupported es (Unsupported None None) eq_refl) as [H _].
    destruct (fst (run es _)); [reflexivity | discriminate].
Qed.

Lemma unsupported_accessors_undefined_witness :
  let m := fst (constructor no_browser_support) in
  (forall reply now, start reply now m = (Normal tt, m, [])) /\
  (forall reply, stop reply m = (Normal tt, m, [])) /\
  isListening m = VUndefined /\ isListening m <> VBool false /\
  getTranscript m = VUndefined /\ getTranscript m <> VString "" /\
  (forall es, isListening (fst (run es m)) = VUndefined /\
              getTranscript (fst (run es m)) = VUndefined).
Proof.
  apply (unsupported_accessors_undefined no_browser_support); reflexivity.
Defined.

(** ** The listeners in closed form *)

Ltac unfold_bind := unfold mbind, M_bind, bind, get, modify, when, ret.

Lemma forEach_words ws : forall s,
  forEach ws (fun word =>
    let cleanWord := JsString.strip_punct word in
    when (0 <? String.length cleanWord)
      (modify (fun s => set_uniqueWords (uniqueWords s ∪ {[cleanWord]}) s))) s
  = (Normal tt, set_uniqueWords (foldl add_word (uniqueWords s) ws) s, []).
Proof.
  induction ws as [|w ws IH]; intros s.
  - destruct s; reflexivity.
  - cbn [forEach foldl]. unfold_bind. unfold add_word at 2.
    destruct (0 <? String.length (JsString.strip_punct w)); cbn zeta iota beta.
    + rewrite IH. destruct s; reflexivity.
    + rewrite IH. reflexivity.
Qed.

Lemma forEach_fillers transcript ps : forall s,
  forEach ps (fun fillerWord =>
    let matches := JsString.match_count fillerWord transcript in
    when (0 <? matches)
      (modify (fun s => set_fillerWordCount (fillerWordCount s + matches) s))) s
  = (Normal tt,
     set_fillerWordCount (foldl (add_filler transcript) (fillerWordCount s) ps) s,
     []).
Proof.
  induction ps as [|p ps IH]; intros s.
  - destruct s; reflexivity.
  - cbn [forEach foldl]. unfold_bind. unfold add_filler at 2.
    destruct (0 <? JsString.match_count p transcript); cbn zeta iota beta.
    + rewrite IH. destruct s; reflexivity.
    + rewrite IH. reflexivity.
Qed.

Lemma _processTranscript_eq transcript now s :
  _processTranscript transcript now s
  = (Normal tt, accounted transcript s,
     interim_notification (accounted transcript s) now).
Proof.
  unfold _processTranscript. fold (words_of transcript).
  unfold mbind, M_bind, bind at 1. cbn [modify].
  unfold bind at 1. rewrite forEach_words.
  unfold bind at 1. cbn [get]. unfold bind at 1.
  rewrite forEach_fillers.
  unfold bind, get, when, notify, interim_notification, accounted.
  destruct s; cbn.
  destruct (truthy_time _); [|reflexivity].
  destruct onAnalyticsUpdate0; reflexivity.
Qed.

Lemma append_assoc (a b c : string) : (a +:+ b) +:+ c = a +:+ (b +:+ c).
Proof.
  induction a as [|x a IH]; [reflexivity|].
  change (String x ((a +:+ b) +:+ c) = String x (a +:+ (b +:+ c))).
  now rewrite IH.
Qed.

Lemma append_empty_r (a : string) : a +:+ "" = a.
Proof.
  induction a as [|x a IH]; [reflexivity|].
  change (String x (a +:+ "") = String x a). now rewrite IH.
Qed.

Lemma onresult_loop_eq rs : forall i now f it s,
  onresult_loop rs i now f it s
  = (Normal (f +:+ join (transcripts_of true rs),
             it +:+ join (transcripts_of false rs)),
     accounted_all (transcripts_of true rs) s,
     loop_trace rs i now s).
Proof.
  induction rs as [|r rs IH]; intros i now f it s.
  - cbn. now rewrite !append_empty_r.
  - cbn [onresult_loop transcripts_of loop_trace].
    destruct (isFinal r); cbn [Bool.eqb].
    + unfold mbind, M_bind, bind. rewrite _processTranscript_eq, IH.
      cbn [join foldr accounted_all foldl]. now rewrite append_assoc.
    + rewrite IH. cbn [join foldr]. now rewrite append_assoc.
Qed.

Lemma onresult_eq event now s :
  onresult event now s
  = (Normal tt, after_batch event s,
     loop_trace (batch event) (resultIndex event) now s
     ++ transcript_notification event (after_batch event s)).
Proof.
  unfold onresult. unfold mbind, M_bind, bind at 1.
  fold (batch event). rewrite onresult_loop_eq.
  unfold bind, modify, get, notify, transcript_notification, after_batch,
    batch_final_text, batch_interim_text, batch_finals.
  cbn [fst snd String.append].
  destruct (onTranscriptUpdate _); cbn; [reflexivity|].
  now rewrite !app_nil_r.
Qed.

(** What the accounting leaves alone. *)
Lemma accounted_all_frame ts : forall s,
  isRecording (accounted_all ts s) = isRecording s /\
  transcriptText (accounted_all ts s) = transcriptText s /\
  startTime (accounted_all ts s) = startTime s /\
  fillerWords (accounted_all ts s) = fillerWords s /\
  onTranscriptUpdate (accounted_all ts s) = onTranscriptUpdate s /\
  onAnalyticsUpdate (accounted_all ts s) = onAnalyticsUpdate s.
Proof.
  induction ts as [|t ts IH]; intros s; cbn [accounted_all foldl].
  - repeat split.
  - destruct (IH (accounted t s)) as (H1 & H2 & H3 & H4 & H5 & H6).
    unfold accounted_all in *. rewrite H1, H2, H3, H4, H5, H6. repeat split.
Qed.

Lemma loop_trace_not_final rs : forall i now s,
  Forall (fun p : Analytics.t * bool => snd p = false)
         (analytics_updates (loop_trace rs i now s)).
Proof.
  induction rs as [|r rs IH]; intros i now s; cbn [loop_trace].
  - constructor.
  - destruct (isFinal r); [|apply IH].
    unfold analytics_updates. rewrite omap_app. apply Forall_app. split.
    + unfold interim_notification.
      destruct (truthy_time _); [|constructor].
      destruct (onAnalyticsUpdate _); repeat constructor.
    + apply IH.
Qed.

Lemma final_analytics_app t1 t2 :
  final_analytics (t1 ++ t2) = final_analytics t1 ++ final_analytics t2.
Proof. unfold final_analytics, analytics_updates. now rewrite !omap_app. Qed.

Lemma final_analytics_loop rs i now s :
  final_analytics (loop_trace rs i now s) = [].
Proof.
  unfold final_analytics.
  induction (loop_trace_not_final rs i now s) as [|[a f] l Hf _ IH]; [reflexivity|].
  cbn in *. now rewrite Hf.
Qed.

Lemma final_analytics_transcript event s :
  final_analytics (transcript_notification event s) = [].
Proof. unfold transcript_notification. now destruct (onTranscriptUpdate s). Qed.

Lemma add_filler_total transcript ps : forall n,
  foldl (add_filler transcript) n ps = n + filler_matches ps transcript.
Proof.
  induction ps as [|p ps IH]; intros n; cbn [foldl].
  - unfold filler_matches. cbn. lia.
  - rewrite IH. unfold add_filler, filler_matches. cbn [map sum_list].
    destruct (JsString.match_count p transcript) eqn:E; cbn [Nat.ltb Nat.leb];
      unfold id; lia.
Qed.

(** ** The lifecycle calls *)

(** C7. Two calls of [stop()] in a row: the second leaves the active flag as
    the first left it, neither call notifies the analytics callback, and of
    all calls and events only the engine's end event sends a final analytics
    notification. *)
Theorem stop_twice_idempotent (m : Manager) (r1 r2 : EngineReply) :
  let m1 := state_of (stop r1 m) in
  let m2 := state_of (stop r2 m1) in
  isListening m2 = isListening m1 /\
  analytics_updates (trace_of (stop r1 m)) = [] /\
  analytics_updates (trace_of (stop r2 m1)) = [] /\
  analytics_updates (snd (run [CallStop r1; CallStop r2] m)) = [] /\
  (forall e m0,
     match e with
     | EngineEnd _ _ => True
     | _ => final_analytics (trace_of (step e m0)) = []
     end).
Proof.
  cbn zeta. split; [|split; [|split; [|split]]].
  - destruct m as [t a|s]; [reflexivity|]. now destruct r1, r2.
  - destruct m as [t a|s]; [reflexivity|]. now destruct r1.
  - destruct m as [t a|s]; [reflexivity|]. now destruct r1, r2.
  - destruct m as [t a|s]; [reflexivity|]. now destruct r1, r2.
  - intros e m0. destruct e as [r n|r|cb|cb|ev n|er r|r n]; try exact I;
      destruct m0 as [t a|s]; try reflexivity.
    + now destruct r.
    + now destruct r.
    + unfold step, on_supported, trace_of. rewrite onresult_eq. cbn [snd].
      rewrite final_analytics_app, final_analytics_loop.
      apply final_analytics_transcript.
    + now destruct r.
Qed.

(** C4. When the engine ends while the active flag is set, the listener
    sends the start request to the engine again and notifies no analytics;
    the state variables are as before. *)
Theorem unprompted_end_restarts (s : State) (reply : EngineReply) (now : Z) :
  isRecording s = true ->
  let r := step (EngineEnd reply now) (Supported s) in
  trace_of r = [EngineStart] /\
  engine_starts (trace_of r) = 1 /\
  analytics_updates (trace_of r) = [] /\
  state_of r = Supported s.
Proof.
  intros Hrec. unfold step, on_supported. rewrite (onend_recording s reply now Hrec).
  repeat split.
Qed.

Lemma unprompted_end_restarts_witness :
  let s := set_isRecording true initial_state in
  isRecording s = true /\
  let r := step (EngineEnd Accepts 5000%Z) (Supported s) in
  trace_of r = [EngineStart] /\
  engine_starts (trace_of r) = 1 /\
  analytics_updates (trace_of r) = [] /\
  state_of r = Supported s.
Proof.
  split; [reflexivity|].
  apply (unprompted_end_restarts (set_isRecording true initial_state) Accepts 5000%Z).
  reflexivity.
Defined.

(** C6, as stated, fails: a second [start()] while the engine is running is
    rejected by the engine, and the counters keep their values. *)
Lemma start_rejected_keeps_counters :
  ~ freshly_started
      (state_of (start (Throws "InvalidStateError") 3000%Z one_fragment_in)).
Proof.
  intros (s & Hs & Hw & _). vm_compute in Hs. inversion Hs; subst s.
  vm_compute in Hw. discriminate.
Qed.

(** C6, amended. After a [start()] call on an object with a recognition
    engine whose start request the engine accepts, the word count is 0, the
    filler count is 0, the vocabulary is empty and the active flag is set;
    when the engine rejects the request, the call sets the active flag and
    nothing else: the word count, the filler count and the vocabulary keep
    their values. *)
Theorem start_accepted_resets (s : State) (now : Z) :
  freshly_started (state_of (start Accepts now (Supported s))) /\
  (forall reply,
     isListening (state_of (start reply now (Supported s))) = VBool true) /\
  (forall error,
     exists s',
       state_of (start (Throws error) now (Supported s)) = Supported s' /\
       s' = set_isRecording true s /\
       isRecording s' = true /\
       wordCount s' = wordCount s /\
       fillerWordCount s' = fillerWordCount s /\
       uniqueWords s' = uniqueWords s /\
       startTime s' = startTime s).
Proof.
  split; [|split].
  - unfold start, on_supported. rewrite start_body_accepts.
    eexists. split; [reflexivity|]. repeat split.
  - intros [|error]; reflexivity.
  - intros error. exists (set_isRecording true s).
    unfold start, on_supported. rewrite start_body_throws. repeat split.
Qed.

(** C2, as stated, fails: the active flag is assigned before the engine is
    asked, so a rejected [start()] leaves it set on an object that was not
    recording. *)
Lemma start_rejected_sets_flag :
  exists s',
    start (Throws "InvalidStateError") 1000%Z fresh
    = (Normal tt, Supported s',
       [EngineStart;
        ConsoleError "Error starting speech recognition:" "InvalidStateError"]) /\
    ~ same_observable_state initial_state s'.
Proof.
  eexists. split; [reflexivity|].
  intros (Hflag & _). discriminate.
Qed.

(** C2, amended. When the engine throws on the request of [start()] or
    [stop()], the call completes normally (the exception is caught and
    reported on the console) and the start time, the word count, the filler
    count, the vocabulary, the transcript and the callbacks are as before
    the call; the active flag has the value the call assigns before it asks
    the engine: set after [start()], cleared after [stop()]. *)
Theorem rejected_request_is_caught (s : State) (error : string) (now : Z) :
  start (Throws error) now (Supported s)
  = (Normal tt, Supported (set_isRecording true s),
     [EngineStart; ConsoleError "Error starting speech recognition:" error]) /\
  stop (Throws error) (Supported s)
  = (Normal tt, Supported (set_isRecording false s),
     [EngineStop; ConsoleError "Error stopping speech recognition:" error]) /\
  (forall b,
     let s' := set_isRecording b s in
     isRecording s' = b /\
     startTime s' = startTime s /\
     wordCount s' = wordCount s /\
     fillerWordCount s' = fillerWordCount s /\
     uniqueWords s' = uniqueWords s /\
     transcriptText s' = transcriptText s /\
     onTranscriptUpdate s' = onTranscriptUpdate s /\
     onAnalyticsUpdate s' = onAnalyticsUpdate s) /\
  (forall m reply now',
     completion_of (start reply now' m) = Normal tt /\
     completion_of (stop reply m) = Normal tt).
Proof.
  split; [reflexivity|]. split; [reflexivity|]. split.
  - intros b. repeat split.
  - intros [t a|s0] [|e] now'; split; reflexivity.
Qed.

(** ** The filler phrases of the sample fragment *)

(** C9. Processing the final fragment "um I think this is like really great"
    adds to the filler count the number of matches of the configured
    phrases, each counted as whole words whatever the case; with the default
    phrases that is 2, one for "um" and one for "like". *)
Theorem sample_fragment_adds_two_fillers (s : State) (now : Z) :
  fillerWords s = default_fillerWords ->
  let s' := state_after (_processTranscript sample_fragment now s) in
  fillerWordCount s'
    = fillerWordCount s + SpecFiller.filler_total default_fillerWords sample_fragment /\
  fillerWordCount s' = fillerWordCount s + 2 /\
  map (fun p => JsString.match_count p sample_fragment) default_fillerWords
    = [1; 0; 1; 0; 0; 0; 0; 0; 0] /\
  map (fun p => SpecFiller.whole_word_occurrences p sample_fragment)
      default_fillerWords
    = [1; 0; 1; 0; 0; 0; 0; 0; 0].
Proof.
  intros Hf. cbn zeta. rewrite _processTranscript_eq.
  unfold state_after, accounted. cbn [fst snd fillerWordCount].
  rewrite Hf, add_filler_total.
  repeat split; try (vm_compute; reflexivity).
Qed.

Lemma sample_fragment_adds_two_fillers_witness :
  fillerWords initial_state = default_fillerWords /\
  fillerWordCount
    (state_after (_processTranscript sample_fragment 31000%Z initial_state)) = 2.
Proof.
  split; [reflexivity|].
  exact (proj1 (proj2
    (sample_fragment_adds_two_fillers initial_state 31000%Z eq_refl))).
Defined.

(** ** Sequences of events *)

Lemma step_supported e s :
  state_of (step e (Supported s)) = Supported (next_state e s).
Proof.
  destruct e as [r n|r|cb|cb|ev n|er r|r n]; unfold step, state_of;
    try reflexivity.
  - now destruct r.
  - now destruct r.
  - unfold on_supported. now rewrite onresult_eq.
  - now destruct r.
  - unfold on_supported, onend, mbind, M_bind, bind, get, notify.
    destruct (isRecording s); [now destruct r|].
    now destruct (onAnalyticsUpdate s).
Qed.

Lemma run_supported es : forall s,
  fst (run es (Supported s)) = Supported (states_after es s).
Proof.
  induction es as [|e es IH]; intros s; [reflexivity|].
  cbn [run fst states_after foldl]. rewrite step_supported. apply IH.
Qed.

Lemma states_after_app es1 es2 s :
  states_after (es1 ++ es2) s = states_after es2 (states_after es1 s).
Proof. unfold states_after. apply foldl_app. Qed.

(** ** The transcript *)

(** C1, as stated, fails: after the second batch the text of the first is
    gone. *)
Lemma earlier_final_text_is_replaced :
  spec_accumulated_transcript two_batches = "hello world" /\
  getTranscript (fst (run two_batches fresh)) = VString " world" /\
  getTranscript (fst (run two_batches fresh))
    <> VString (spec_accumulated_transcript two_batches).
Proof.
  split; [reflexivity|]. split; [reflexivity|].
  vm_compute. discriminate.
Qed.

(** C1, amended. After any sequence of calls and events, [getTranscript()]
    returns the final texts, one after the other, of the results brought by
    the last processed batch alone (interim texts left out); it is the empty
    string as long as no batch was processed. *)
Theorem getTranscript_is_last_batch (es : list Event) :
  getTranscript (fst (run es fresh)) = VString (last_batch_text es "") /\
  (forall s,
     getTranscript (fst (run es (Supported s)))
     = VString (last_batch_text es (transcriptText s))) /\
  (forall s event now,
     getTranscript (fst (run (es ++ [EngineResult event now]) (Supported s)))
     = VString (join (transcripts_of true
                        (drop (resultIndex event) (results event))))).
Proof.
  assert (H : forall s, getTranscript (fst (run es (Supported s)))
                        = VString (last_batch_text es (transcriptText s))).
  { induction es as [|e es IH]; intros s; [reflexivity|].
    cbn [run fst]. rewrite step_supported, IH. f_equal.
    cbn [last_batch_text foldl]. f_equal.
    destruct e as [[|er] n|r|cb|cb|ev n|er r|r n]; reflexivity. }
  split; [apply (H initial_state)|]. split; [exact H|].
  intros s event now. rewrite run_supported, states_after_app. reflexivity.
Qed.

(** ** The counters within a session *)

Lemma grows_refl s : grows s s.
Proof. repeat split; [lia | set_solver | lia]. Qed.

Lemma grows_same_counters s s' :
  wordCount s' = wordCount s ->
  uniqueWords s' = uniqueWords s ->
  fillerWordCount s' = fillerWordCount s ->
  grows s s'.
Proof. intros A B C. unfold grows. rewrite A, B, C. apply grows_refl. Qed.

Lemma grows_trans s1 s2 s3 : grows s1 s2 -> grows s2 s3 -> grows s1 s3.
Proof.
  intros (A1 & B1 & C1) (A2 & B2 & C2).
  repeat split; [lia | set_solver | lia].
Qed.

Lemma add_word_fold_subseteq ws : forall u : gset string, u ⊆ foldl add_word u ws.
Proof.
  induction ws as [|w ws IH]; intros u; cbn [foldl]; [set_solver|].
  etransitivity; [|apply IH]. unfold add_word.
  destruct (0 <? _); set_solver.
Qed.

Lemma accounted_grows t s : grows s (accounted t s).
Proof.
  unfold grows, accounted. cbn [wordCount uniqueWords fillerWordCount].
  rewrite add_filler_total.
  repeat split; [lia | apply add_word_fold_subseteq | lia].
Qed.

Lemma accounted_all_grows ts : forall s, grows s (accounted_all ts s).
Proof.
  induction ts as [|t ts IH]; intros s; [apply grows_refl|].
  cbn [accounted_all foldl]. eapply grows_trans; [apply accounted_grows|apply IH].
Qed.

Lemma next_state_grows e s :
  is_accepted_start e = false -> grows s (next_state e s).
Proof.
  destruct e as [[|er] n|r|cb|cb|ev n|er r|r n]; intros He;
    try discriminate; try (apply grows_same_counters; reflexivity).
  cbn [next_state]. unfold after_batch.
  eapply grows_trans; [apply accounted_all_grows|].
  apply grows_same_counters; reflexivity.
Qed.

Lemma states_after_grows es : forall s,
  existsb is_accepted_start es = false -> grows s (states_after es s).
Proof.
  induction es as [|e es IH]; intros s Hes; [apply grows_refl|].
  cbn [existsb] in Hes. apply orb_false_iff in Hes as [He Hes].
  cbn [states_after foldl]. eapply grows_trans; [apply next_state_grows, He|].
  apply IH, Hes.
Qed.

(** C8, as stated, fails: a session is not delimited by the calls of
    [start()].  A call that the engine rejects, here a second [start()]
    while the engine runs, sets the active flag and leaves the counters of
    the session as they are. *)
Lemma rejected_start_call_does_not_reset :
  let m := state_of (step (CallStart (Throws "InvalidStateError") 32000%Z)
                          sample_fragment_in) in
  isListening m = VBool true /\
  (exists s, m = Supported s /\ wordCount s = 8 /\ fillerWordCount s = 2) /\
  ~ counters_reset m.
Proof.
  cbn zeta. unfold sample_fragment_in, fresh. cbn [constructor browser
    hasSpeechRecognition hasWebkitSpeechRecognition negb andb fst].
  rewrite run_supported, step_supported.
  split; [reflexivity|]. split.
  - eexists. split; [reflexivity|]. split; vm_compute; reflexivity.
  - intros (s & Hs & Hw & _). injection Hs as <-.
    vm_compute in Hw. discriminate.
Qed.

(** C8, amended. Over any sequence of calls and events with no accepted
    [start()] in it, rejected calls of [start()] included, the word count,
    the vocabulary (by inclusion) and the filler count only grow; an
    accepted [start()] sets them to 0, empty and 0, and nothing else resets
    them: a rejected [start()] leaves the three of them as they are. *)
Theorem counters_monotone_within_session (s : State) (es : list Event) :
  existsb is_accepted_start es = false ->
  (exists s', fst (run es (Supported s)) = Supported s' /\
     wordCount s <= wordCount s' /\
     uniqueWords s ⊆ uniqueWords s' /\
     fillerWordCount s <= fillerWordCount s') /\
  (forall now, exists s0,
     fst (run (es ++ [CallStart Accepts now]) (Supported s)) = Supported s0 /\
     wordCount s0 = 0 /\ uniqueWords s0 = ∅ /\ fillerWordCount s0 = 0) /\
  (forall e, is_accepted_start e = false ->
     exists s1, state_of (step e (Supported s)) = Supported s1 /\ grows s s1) /\
  (forall error now, exists s1,
     state_of (step (CallStart (Throws error) now) (Supported s)) = Supported s1 /\
     wordCount s1 = wordCount s /\ uniqueWords s1 = uniqueWords s /\
     fillerWordCount s1 = fillerWordCount s).
Proof.
  intros Hes. split; [|split; [|split]]; cycle 3.
  - intros error now. exists (set_isRecording true s). repeat split.
  - exists (states_after es s). split; [apply run_supported|].
    apply states_after_grows, Hes.
  - intros now. eexists. split.
    + rewrite run_supported, states_after_app. reflexivity.
    + repeat split.
  - intros e He. exists (next_state e s). split; [apply step_supported|].
    apply next_state_grows, He.
Qed.

Lemma counters_monotone_within_session_witness :
  existsb is_accepted_start busy_session = false /\
  exists s', fst (run busy_session one_fragment_in) = Supported s' /\
    1 <= wordCount s' /\ fillerWordCount s' = 2.
Proof.
  split; [reflexivity|].
  destruct (counters_monotone_within_session
              (states_after
                 [CallStart Accepts 1000%Z;
                  EngineResult {| resultIndex := 0; results := [final "hello"] |}
                               (fun _ => 2000%Z)] initial_state)
              busy_session eq_refl) as [(s' & Hrun & Hw & _ & _) _].
  exists s'. split; [exact Hrun|]. split; [exact Hw|].
  apply (f_equal (fun m => match m with
                           | Supported x => fillerWordCount x
                           | Unsupported _ _ => 0
                           end)) in Hrun.
  symmetry. exact Hrun.
Defined.

(** ** The end of a session *)

Lemma after_batch_frame event s :
  isRecording (after_batch event s) = isRecording s /\
  startTime (after_batch event s) = startTime s.
Proof.
  unfold after_batch.
  destruct (accounted_all_frame (batch_finals event) s) as (H1 & _ & H3 & _).
  cbn [set_transcriptText isRecording startTime]. auto.
Qed.









(** ** Vocabulary diversity *)

Lemma is_space_lower c : JsString.is_space (JsString.lower c) = JsString.is_space c.
Proof. destruct c as [[] [] [] [] [] [] [] []]; reflexivity. Qed.

Lemma toLowerCase_of_list l :
  JsString.toLowerCase (string_of_list_ascii l)
  = string_of_list_ascii (map JsString.lower l).
Proof. induction l as [|c l IH]; [reflexivity|]. cbn. now rewrite IH. Qed.

Lemma split_ws_lower s : forall cur b,
  JsString.split_ws_from (map JsString.lower cur) b (JsString.toLowerCase s)
  = map JsString.toLowerCase (JsString.split_ws_from cur b s).
Proof.
  induction s as [|c s IH]; intros cur b.
  - cbn. now rewrite toLowerCase_of_list, map_rev.
  - cbn [JsString.toLowerCase JsString.split_ws_from]. rewrite is_space_lower.
    destruct (JsString.is_space c).
    + destruct b; [apply IH|].
      cbn [map]. rewrite toLowerCase_of_list, map_rev. f_equal. apply (IH [] true).
    + apply (IH (c :: cur) false).
Qed.

Lemma words_of_tokens t :
  words_of t = map JsString.toLowerCase (raw_words t).
Proof. unfold words_of, raw_words, JsString.split_ws. apply (split_ws_lower _ [] false). Qed.





Lemma analytics_updates_transcript event s :
  analytics_updates (transcript_notification event s) = [].
Proof. unfold transcript_notification. now destruct (onTranscriptUpdate s). Qed.


(** * Further properties of the listeners *)

(** ** The error listener *)

(** X1. An error event of the engine is handled as a forced stop: the error
    is logged, the active flag is cleared, one stop request goes to the
    engine (a throwing request is caught), and no other state variable
    changes; the end event that follows does not restart the engine and
    sends the final analytics to the registered callback. *)
Theorem error_forces_stop (s : State) (error : string) (r rEnd : EngineReply)
    (now : Z) :
  let r1 := step (EngineError error r) (Supported s) in
  let r2 := step (EngineEnd rEnd now) (state_of r1) in
  completion_of r1 = Normal tt /\
  state_of r1 = Supported (set_isRecording false s) /\
  head (trace_of r1) = Some (ConsoleError "Speech recognition error:" error) /\
  engine_stops (trace_of r1) = 1 /\
  engine_starts (trace_of r1) = 0 /\
  analytics_updates (trace_of r1) = [] /\
  state_of r2 = state_of r1 /\
  engine_starts (trace_of r2) = 0 /\
  analytics_updates (trace_of r2)
  = match onAnalyticsUpdate s with
    | Some _ => [(snapshot (set_isRecording false s) now, true)]
    | None => []
    end.
Proof.
  cbn zeta.
  assert (H1 : step (EngineError error r) (Supported s)
               = (Normal tt, Supported (set_isRecording false s),
                  ConsoleError "Speech recognition error:" error :: EngineStop ::
                  match r with
                  | Accepts => [ConsoleLog "Speech recognition stopped"]
                  | Throws e => [ConsoleError "Error stopping speech recognition:" e]
                  end)).
  { destruct r; reflexivity. }
  rewrite H1. unfold completion_of, state_of, trace_of. cbn [fst snd].
  unfold step, on_supported.
  rewrite (onend_stopped (set_isRecording false s) rEnd now eq_refl).
  cbn [fst snd onAnalyticsUpdate set_isRecording].
  repeat split; try (destruct r; reflexivity);
    destruct (onAnalyticsUpdate s); reflexivity.
Qed.

(** ** The callbacks *)

Lemma states_after_callbacks es : forall s,
  onAnalyticsUpdate (states_after es s)
  = analytics_callback_after es (onAnalyticsUpdate s) /\
  onTranscriptUpdate (states_after es s)
  = transcript_callback_after es (onTranscriptUpdate s).
Proof.
  induction es as [|e es IH]; intros s; [split; reflexivity|].
  cbn [states_after foldl analytics_callback_after transcript_callback_after].
  fold (states_after es (next_state e s)).
  destruct (IH (next_state e s)) as [Ha Ht]. rewrite Ha, Ht.
  unfold analytics_callback_after, transcript_callback_after.
  destruct e as [[|er] n|r|cb|cb|ev n|er r|r n]; try (split; reflexivity).
  unfold next_state, after_batch.
  destruct (accounted_all_frame (batch_finals ev) s) as (_ & _ & _ & _ & H5 & H6).
  cbn [set_transcriptText onAnalyticsUpdate onTranscriptUpdate].
  now rewrite H5, H6.
Qed.

Lemma loop_trace_delivered rs : forall i now s,
  Forall (delivered_to (onAnalyticsUpdate s) (onTranscriptUpdate s))
         (loop_trace rs i now s).
Proof.
  induction rs as [|r rs IH]; intros i now s; cbn [loop_trace]; [constructor|].
  destruct (isFinal r); [|apply IH].
  apply Forall_app. split.
  - unfold interim_notification. cbn [accounted startTime onAnalyticsUpdate].
    destruct (truthy_time (startTime s)); [|constructor].
    destruct (onAnalyticsUpdate s); repeat constructor.
  - apply (IH (S i) now (accounted (transcript r) s)).
Qed.

Lemma step_delivered e s :
  Forall (delivered_to (onAnalyticsUpdate s) (onTranscriptUpdate s))
         (trace_of (step e (Supported s))).
Proof.
  destruct e as [r n|r|cb|cb|ev n|er r|r n]; unfold step, trace_of.
  - destruct r; repeat constructor.
  - destruct r; repeat constructor.
  - constructor.
  - constructor.
  - unfold on_supported. rewrite onresult_eq. cbn [snd].
    apply Forall_app. split; [apply loop_trace_delivered|].
    unfold transcript_notification, after_batch.
    destruct (accounted_all_frame (batch_finals ev) s) as (_ & _ & _ & _ & H5 & _).
    cbn [set_transcriptText onTranscriptUpdate]. rewrite H5.
    destruct (onTranscriptUpdate s); repeat constructor.
  - destruct r; repeat constructor.
  - unfold on_supported. destruct (isRecording s) eqn:Hrec.
    + rewrite (onend_recording s r n Hrec). repeat constructor.
    + rewrite (onend_stopped s r n Hrec). cbn [snd].
      destruct (onAnalyticsUpdate s); repeat constructor.
Qed.

(** X2. Each kind of notification has one callback slot: a call of a setter
    replaces the callback of its kind, nothing else changes the slots, and
    every notification an event sends goes to the callback last registered
    for its kind; after a setter was called with no callback, no
    notification of that kind is sent. *)
Theorem notifications_reach_last_callback (s : State) (es : list Event) (e : Event) :
  let ca := analytics_callback_after es (onAnalyticsUpdate s) in
  let ct := transcript_callback_after es (onTranscriptUpdate s) in
  let t := trace_of (step e (fst (run es (Supported s)))) in
  Forall (delivered_to ca ct) t /\
  match ca with Some _ => True | None => analytics_updates t = [] end /\
  match ct with Some _ => True | None => transcript_updates t = [] end.
Proof.
  cbn zeta. rewrite run_supported.
  destruct (states_after_callbacks es s) as [Ha Ht]. rewrite <- Ha, <- Ht.
  pose proof (step_delivered e (states_after es s)) as Hd.
  split; [exact Hd|].
  set (t := trace_of _) in *. clearbody t.
  destruct (onAnalyticsUpdate (states_after es s)), (onTranscriptUpdate (states_after es s));
    repeat split; induction Hd as [|x l Hx _ IH]; try reflexivity;
    destruct x; cbn in *; try discriminate; exact IH.
Qed.

(** ** The result listener *)

Lemma transcript_updates_loop rs : forall i now s,
  transcript_updates (loop_trace rs i now s) = [].
Proof.
  induction rs as [|r rs IH]; intros i now s; cbn [loop_trace]; [reflexivity|].
  destruct (isFinal r); [|apply IH].
  unfold transcript_updates. rewrite omap_app.
  fold (transcript_updates (loop_trace rs (S i) now (accounted (transcript r) s))).
  rewrite IH, app_nil_r. unfold interim_notification.
  destruct (truthy_time _); [|reflexivity].
  now destruct (onAnalyticsUpdate _).
Qed.

(** X3. With a transcript callback registered, the result listener calls it
    exactly once per event, after all the analytics notifications of the
    event, with the final and the interim text of the batch; the final text
    it passes is what [getTranscript()] returns afterwards. *)
Theorem transcript_update_once_per_batch (s : State) (event : ResultEvent)
    (now : nat -> Z) (h : Handler) :
  onTranscriptUpdate s = Some h ->
  let r := step (EngineResult event now) (Supported s) in
  transcript_updates (trace_of r)
  = [(h, batch_final_text event, batch_interim_text event)] /\
  last (trace_of r)
  = Some (TranscriptUpdate h (batch_final_text event) (batch_interim_text event)) /\
  getTranscript (state_of r) = VString (batch_final_text event) /\
  completion_of r = Normal tt.
Proof.
  intros Hcb. cbn zeta. unfold step, on_supported. rewrite onresult_eq.
  unfold trace_of, state_of, completion_of. cbn [fst snd].
  unfold transcript_notification, after_batch.
  destruct (accounted_all_frame (batch_finals event) s) as (_ & _ & _ & _ & H5 & _).
  cbn [set_transcriptText onTranscriptUpdate transcriptText getTranscript].
  rewrite H5, Hcb. split; [|split; [|split; reflexivity]].
  - unfold transcript_updates. rewrite omap_app.
    fold (transcript_updates (loop_trace (batch event) (resultIndex event) now s)).
    now rewrite transcript_updates_loop.
  - apply last_snoc.
Qed.

Lemma transcript_update_once_per_batch_witness :
  let r := step (EngineResult {| resultIndex := 1;
                                 results := [final "hello"; final " world";
                                             interim " and"] |}
                              (fun _ => 3000%Z))
                (Supported (set_onTranscriptUpdate (Some 4) initial_state)) in
  transcript_updates (trace_of r) = [(4, " world", " and")] /\
  getTranscript (state_of r) = VString " world".
Proof.
  destruct (transcript_update_once_per_batch
              (set_onTranscriptUpdate (Some 4) initial_state)
              {| resultIndex := 1;
                 results := [final "hello"; final " world"; interim " and"] |}
              (fun _ => 3000%Z) 4 eq_refl) as (H1 & _ & H3 & _).
  split; [exact H1 | exact H3].
Defined.

Lemma loop_trace_count rs : forall i now s,
  length (analytics_updates (loop_trace rs i now s))
  = if notifies_interim s then length (transcripts_of true rs) else 0.
Proof.
  induction rs as [|r rs IH]; intros i now s; cbn [loop_trace transcripts_of].
  - now destruct (notifies_interim s).
  - destruct (isFinal r); cbn [Bool.eqb]; [|apply IH].
    unfold analytics_updates. rewrite omap_app, length_app.
    fold (analytics_updates (loop_trace rs (S i) now (accounted (transcript r) s))).
    rewrite IH. unfold interim_notification, notifies_interim.
    cbn [accounted startTime onAnalyticsUpdate].
    destruct (truthy_time (startTime s)); [|reflexivity].
    destruct (onAnalyticsUpdate s); reflexivity.
Qed.

(** X4. The result listener sends one analytics notification per final
    result of the batch, none of them flagged final, when an analytics
    callback is registered and the start time is set and not 0; when no
    callback is registered, or no [start()] was accepted yet, or the clock
    read 0 at the start, it sends none, though the fragments are accounted
    all the same. *)
Theorem interim_analytics_once_per_final (s : State) (event : ResultEvent)
    (now : nat -> Z) :
  let r := step (EngineResult event now) (Supported s) in
  length (analytics_updates (trace_of r))
  = (if truthy_time (startTime s) && has_callback (onAnalyticsUpdate s)
     then length (batch_finals event) else 0) /\
  final_analytics (trace_of r) = [] /\
  state_of r = Supported (after_batch event s) /\
  wordCount (after_batch event s)
  = wordCount s + length (concat (map words_of (batch_finals event))).
Proof.
  cbn zeta. unfold step, on_supported. rewrite onresult_eq.
  unfold trace_of, state_of. cbn [fst snd].
  split; [|split; [|split; [reflexivity|]]].
  - unfold analytics_updates. rewrite omap_app, length_app.
    fold (analytics_updates (loop_trace (batch event) (resultIndex event) now s)).
    fold (analytics_updates (transcript_notification event (after_batch event s))).
    rewrite analytics_updates_transcript, loop_trace_count. cbn [length].
    unfold notifies_interim, batch_finals. lia.
  - rewrite final_analytics_app, final_analytics_loop.
    apply final_analytics_transcript.
  - unfold after_batch. cbn [set_transcriptText wordCount].
    generalize (batch_finals event) as ts. intros ts. revert s.
    induction ts as [|t ts IH]; intros s; cbn [accounted_all foldl map concat].
    + cbn. lia.
    + fold (accounted_all ts (accounted t s)). rewrite IH.
      cbn [accounted wordCount]. rewrite length_app. lia.
Qed.

Lemma no_final_result_finals rs :
  forallb (fun r => negb (isFinal r)) rs = true -> transcripts_of true rs = [].
Proof.
  induction rs as [|r rs IH]; [reflexivity|]. cbn [forallb transcripts_of].
  intros H. apply andb_true_iff in H as [Hr Hrs].
  destruct (isFinal r); [discriminate|]. cbn [Bool.eqb]. apply IH, Hrs.
Qed.

(** X5. A batch without a final result (interim results only, or a result
    index at or past the end of the results) leaves the word count, the
    filler count and the vocabulary as they are and sends no analytics
    notification, but empties the kept transcript; an index at or past the
    end brings no result at all. *)
Theorem batch_without_final_result (s : State) (event : ResultEvent)
    (now : nat -> Z) :
  no_final_result event = true ->
  let r := step (EngineResult event now) (Supported s) in
  state_of r = Supported (set_transcriptText "" s) /\
  getTranscript (state_of r) = VString "" /\
  analytics_updates (trace_of r) = [] /\
  transcript_updates (trace_of r)
  = match onTranscriptUpdate s with
    | Some h => [(h, "", batch_interim_text event)]
    | None => []
    end.
Proof.
  intros Hnf. apply no_final_result_finals in Hnf.
  cbn zeta. unfold step, on_supported. rewrite onresult_eq.
  unfold trace_of, state_of. cbn [fst snd].
  assert (Hs : after_batch event s = set_transcriptText "" s).
  { unfold after_batch, batch_final_text, batch_finals. now rewrite Hnf. }
  rewrite Hs. split; [reflexivity|]. split; [reflexivity|].
  assert (Ht : transcript_notification event (set_transcriptText "" s)
               = match onTranscriptUpdate s with
                 | Some h => [TranscriptUpdate h "" (batch_interim_text event)]
                 | None => []
                 end).
  { unfold transcript_notification, batch_final_text, batch_finals.
    rewrite Hnf. reflexivity. }
  rewrite Ht. split.
  - pose proof (loop_trace_count (batch event) (resultIndex event) now s) as Hc.
    rewrite Hnf in Hc. cbn [length] in Hc.
    unfold analytics_updates in *. rewrite omap_app.
    destruct (omap _ (loop_trace _ _ _ _)); [|destruct (notifies_interim s); discriminate].
    now destruct (onTranscriptUpdate s).
  - unfold transcript_updates. rewrite omap_app.
    fold (transcript_updates (loop_trace (batch event) (resultIndex event) now s)).
    rewrite transcript_updates_loop. now destruct (onTranscriptUpdate s).
Qed.

Lemma batch_without_final_result_witness :
  no_final_result {| resultIndex := 5; results := [final "hello"] |} = true /\
  state_of (step (EngineResult {| resultIndex := 5; results := [final "hello"] |}
                               (fun _ => 3000%Z)) one_fragment_in)
  = Supported (set_transcriptText ""
                 (states_after
                    [CallStart Accepts 1000%Z;
                     EngineResult {| resultIndex := 0; results := [final "hello"] |}
                                  (fun _ => 2000%Z)] initial_state)).
Proof.
  split; [reflexivity|].
  exact (proj1 (batch_without_final_result
                  (states_after
                     [CallStart Accepts 1000%Z;
                      EngineResult {| resultIndex := 0; results := [final "hello"] |}
                                   (fun _ => 2000%Z)] initial_state)
                  {| resultIndex := 5; results := [final "hello"] |}
                  (fun _ => 3000%Z) eq_refl)).
Defined.

(** ** The words of a fragment *)

Lemma split_ws_from_length s : forall cur b,
  length (JsString.split_ws_from cur b s)
  = (if b then 0 else 1) + runs_from b s + (if ends_in_space b s then 1 else 0).
Proof.
  induction s as [|c s IH]; intros cur b.
  - cbn. destruct b; reflexivity.
  - cbn [JsString.split_ws_from runs_from ends_in_space].
    destruct (JsString.is_space c).
    + destruct b; [apply IH|]. cbn [length]. rewrite IH. lia.
    + rewrite IH. destruct b; lia.
Qed.

Lemma runs_trimStart s : runs_from true (JsString.trimStart s) = runs_from true s.
Proof.
  induction s as [|c s IH]; [reflexivity|]. cbn [JsString.trimStart runs_from].
  destruct (JsString.is_space c) eqn:E; [exact IH|].
  cbn [runs_from]. now rewrite E.
Qed.

Lemma runs_trimEnd s : forall b, runs_from b (JsString.trimEnd s) = runs_from b s.
Proof.
  induction s as [|c s IH]; intros b; [reflexivity|].
  cbn [JsString.trimEnd]. destruct (JsString.trimEnd s) as [|c' s'] eqn:E.
  - cbn [runs_from]. destruct (JsString.is_space c) eqn:Ec.
    + rewrite <- IH. reflexivity.
    + cbn [runs_from]. rewrite Ec, <- IH. reflexivity.
  - cbn [runs_from]. destruct (JsString.is_space c); now rewrite <- IH.
Qed.

Lemma trimEnd_ends s : ends_in_space false (JsString.trimEnd s) = false.
Proof.
  induction s as [|c s IH]; [reflexivity|].
  cbn [JsString.trimEnd]. destruct (JsString.trimEnd s) as [|c' s'] eqn:E.
  - destruct (JsString.is_space c) eqn:Ec; [reflexivity|]. cbn. exact Ec.
  - cbn [ends_in_space]. exact IH.
Qed.

Lemma trimStart_head s :
  match JsString.trimStart s with
  | EmptyString => True
  | String c _ => JsString.is_space c = false
  end.
Proof.
  induction s as [|c s IH]; [exact I|]. cbn [JsString.trimStart].
  destruct (JsString.is_space c) eqn:E; [exact IH | exact E].
Qed.

Lemma trimEnd_head c s :
  JsString.is_space c = false ->
  exists r, JsString.trimEnd (String c s) = String c r.
Proof.
  intros Hc. cbn [JsString.trimEnd]. rewrite Hc.
  destruct (JsString.trimEnd s); eauto.
Qed.

Lemma split_ws_trim_length t :
  length (JsString.split_ws (JsString.trim t)) = Nat.max 1 (word_runs t).
Proof.
  unfold JsString.split_ws, JsString.trim, word_runs.
  rewrite split_ws_from_length, trimEnd_ends.
  rewrite <- (runs_trimStart t), <- (runs_trimEnd (JsString.trimStart t) true).
  pose proof (trimStart_head t) as Hh.
  destruct (JsString.trimStart t) as [|c r]; [reflexivity|].
  destruct (trimEnd_head c r Hh) as [r' ->].
  cbn [runs_from]. rewrite Hh. lia.
Qed.

(** X6. A final fragment adds to the word count the number of its maximal
    runs of code units that are not white space, and 1 when it has none (an
    empty or blank fragment counts as one word); punctuation alone makes a
    word. *)
Theorem word_count_of_fragment (s : State) (fragment : string) (now : Z) :
  length (words_of fragment) = Nat.max 1 (word_runs fragment) /\
  wordCount (state_after (_processTranscript fragment now s))
  = wordCount s + Nat.max 1 (word_runs fragment) /\
  wordCount s < wordCount (state_after (_processTranscript fragment now s)).
Proof.
  assert (H : length (words_of fragment) = Nat.max 1 (word_runs fragment)).
  { rewrite words_of_tokens, length_map. apply split_ws_trim_length. }
  rewrite _processTranscript_eq. unfold state_after. cbn [fst snd accounted wordCount].
  rewrite H. repeat split; lia.
Qed.

Example word_runs_sample :
  word_runs "  well --  it's  fine. " = 4 /\
  words_of "  well --  it's  fine. " = ["well"; "--"; "it's"; "fine."].
Proof. split; reflexivity. Qed.

(** ** The entries of the vocabulary *)

Lemma lower_not_upper c :
  JsString.between 65 90 (JsString.code (JsString.lower c)) = false.
Proof. destruct c as [[] [] [] [] [] [] [] []]; reflexivity. Qed.

Lemma kept_token_char c :
  token_char c = true -> JsString.kept c = true -> is_lower_alnum c = true.
Proof.
  destruct c as [[] [] [] [] [] [] [] []]; vm_compute; intros H1 H2;
    congruence.
Qed.

Lemma all_chars_of_list p l :
  all_chars p (string_of_list_ascii l) = forallb p l.
Proof. induction l as [|c l IH]; [reflexivity|]. cbn. now rewrite IH. Qed.

Lemma forallb_rev {A} (p : A -> bool) l : forallb p (rev l) = forallb p l.
Proof.
  induction l as [|x l IH]; [reflexivity|]. cbn [rev forallb].
  rewrite forallb_app, IH. cbn [forallb]. rewrite andb_true_r. apply andb_comm.
Qed.

Lemma split_ws_from_pieces (p : ascii -> bool) s : forall cur b,
  forallb p cur = true ->
  all_chars (fun c => JsString.is_space c || p c) s = true ->
  Forall (fun w => all_chars p w = true) (JsString.split_ws_from cur b s).
Proof.
  induction s as [|c s IH]; intros cur b Hcur Hs.
  - cbn. constructor; [|constructor].
    now rewrite all_chars_of_list, forallb_rev.
  - cbn [all_chars] in Hs. apply andb_true_iff in Hs as [Hc Hs].
    cbn [JsString.split_ws_from]. destruct (JsString.is_space c) eqn:E.
    + destruct b; [now apply IH|].
      constructor; [|now apply IH].
      now rewrite all_chars_of_list, forallb_rev.
    + apply IH; [|exact Hs]. cbn [forallb]. cbn [orb] in Hc. now rewrite Hc.
Qed.

Lemma toLowerCase_chars s :
  all_chars (fun c => JsString.is_space c || token_char c)
            (JsString.toLowerCase s) = true.
Proof.
  induction s as [|c s IH]; [reflexivity|]. cbn [JsString.toLowerCase all_chars].
  rewrite IH, andb_true_r. unfold token_char. rewrite lower_not_upper.
  now destruct (JsString.is_space (JsString.lower c)).
Qed.

Lemma words_of_token_chars t :
  Forall (fun w => all_chars token_char w = true) (words_of t).
Proof.
  unfold words_of, JsString.split_ws.
  apply split_ws_from_pieces; [reflexivity | apply toLowerCase_chars].
Qed.

Lemma strip_punct_clean w :
  all_chars token_char w = true ->
  all_chars is_lower_alnum (JsString.strip_punct w) = true.
Proof.
  induction w as [|c w IH]; [reflexivity|]. cbn [all_chars JsString.strip_punct].
  intros H. apply andb_true_iff in H as [Hc Hw].
  destruct (JsString.kept c) eqn:Ek; [|now apply IH].
  cbn [all_chars]. now rewrite (kept_token_char c Hc Ek), IH.
Qed.

Lemma add_word_fold_clean ws : forall u : gset string,
  Forall (fun w => all_chars token_char w = true) ws ->
  (forall w, w ∈ u -> clean_word w = true) ->
  forall w, w ∈ foldl add_word u ws -> clean_word w = true.
Proof.
  induction ws as [|x ws IH]; intros u Hws Hu; [exact Hu|].
  apply Forall_cons in Hws as [Hx Hws]. cbn [foldl].
  apply IH; [exact Hws|]. unfold add_word.
  destruct (0 <? String.length (JsString.strip_punct x)) eqn:E; [|exact Hu].
  intros w Hw. apply elem_of_union in Hw as [Hw|Hw]; [now apply Hu|].
  apply elem_of_singleton in Hw as ->. unfold clean_word.
  now rewrite E, strip_punct_clean.
Qed.

Lemma next_state_vocabulary_clean e s :
  (forall w, w ∈ uniqueWords s -> clean_word w = true) ->
  forall w, w ∈ uniqueWords (next_state e s) -> clean_word w = true.
Proof.
  intros Hs.
  destruct e as [[|er] n|r|cb|cb|ev n|er r|r n]; try exact Hs.
  - intros w Hw. cbn in Hw. now apply not_elem_of_empty in Hw.
  - cbn [next_state]. unfold after_batch. cbn [set_transcriptText uniqueWords].
    generalize (batch_finals ev) as ts. intros ts. revert s Hs.
    induction ts as [|t ts IH]; intros s Hs; [exact Hs|].
    cbn [accounted_all foldl]. apply (IH (accounted t s)).
    cbn [accounted uniqueWords].
    apply add_word_fold_clean; [apply words_of_token_chars | exact Hs].
Qed.

(** X7. At every point of a session, every entry of the vocabulary is a
    non-empty string of digits and lowercase letters of the basic alphabet:
    no punctuation, no underscore, no white space, no uppercase letter and
    no letter outside the basic alphabet ever enters it. *)
Theorem vocabulary_entries_are_clean (es : list Event) :
  exists s,
    fst (run es fresh) = Supported s /\
    (forall w, w ∈ uniqueWords s -> clean_word w = true) /\
    (forall fragment now w,
       w ∈ uniqueWords (state_after (_processTranscript fragment now s)) ->
       clean_word w = true).
Proof.
  exists (states_after es initial_state).
  split; [apply (run_supported es initial_state)|].
  assert (H : forall w, w ∈ uniqueWords (states_after es initial_state) ->
                        clean_word w = true).
  { assert (G : forall s, (forall w, w ∈ uniqueWords s -> clean_word w = true) ->
              forall w, w ∈ uniqueWords (states_after es s) -> clean_word w = true).
    { induction es as [|e es IH]; intros s Hs; [exact Hs|].
      cbn [states_after foldl]. apply (IH (next_state e s)).
      now apply next_state_vocabulary_clean. }
    apply G. intros w Hw. cbn in Hw. now apply not_elem_of_empty in Hw. }
  split; [exact H|].
  intros fragment now w. rewrite _processTranscript_eq.
  unfold state_after. cbn [fst snd accounted uniqueWords].
  apply add_word_fold_clean; [apply words_of_token_chars | exact H].
Qed.

Example vocabulary_of_accented_fragment :
  elements (uniqueWords
    (state_after (_processTranscript
                    ("Caf" +:+ String (ascii_of_nat 233) " N_1 -- DON'T 42!")
                    0%Z initial_state)))
  = ["caf"; "n1"; "42"; "dont"].
Proof. vm_compute. reflexivity. Qed.

(** ** The case of the letters in filler matching *)

Lemma is_word_canonicalize c :
  JsString.is_word (JsString.canonicalize c) = JsString.is_word c.
Proof. destruct c as [[] [] [] [] [] [] [] []]; reflexivity. Qed.

Lemma canonicalize_eq_word c d :
  JsString.canonicalize c = JsString.canonicalize d ->
  JsString.is_word c = JsString.is_word d.
Proof.
  intros H. rewrite <- (is_word_canonicalize c), <- (is_word_canonicalize d).
  now rewrite H.
Qed.

Lemma fold_case_head s1 s2 :
  SpecFiller.fold_case s1 = SpecFiller.fold_case s2 ->
  JsString.opt_word (JsString.head s1) = JsString.opt_word (JsString.head s2).
Proof.
  destruct s1 as [|c1 r1], s2 as [|c2 r2]; cbn; try discriminate; [reflexivity|].
  intros H. injection H as Hc _. now apply canonicalize_eq_word.
Qed.

Lemma literal_fold_case p : forall s1 s2 b1 b2,
  SpecFiller.fold_case s1 = SpecFiller.fold_case s2 ->
  JsString.opt_word b1 = JsString.opt_word b2 ->
  JsString.literal_then_boundary p s1 b1 = JsString.literal_then_boundary p s2 b2.
Proof.
  induction p as [|pc p IH]; intros s1 s2 b1 b2 Hs Hb.
  - cbn [JsString.literal_then_boundary]. unfold JsString.boundary.
    now rewrite Hb, (fold_case_head s1 s2 Hs).
  - cbn [JsString.literal_then_boundary].
    destruct s1 as [|c1 r1], s2 as [|c2 r2]; cbn in Hs; try discriminate;
      [reflexivity|].
    injection Hs as Hc Hr. rewrite Hc.
    destruct (Ascii.eqb _ _); [|reflexivity].
    apply IH; [exact Hr|]. cbn. now apply canonicalize_eq_word.
Qed.

Lemma scan_fold_case p s1 : forall s2 b1 b2 skip,
  SpecFiller.fold_case s1 = SpecFiller.fold_case s2 ->
  JsString.opt_word b1 = JsString.opt_word b2 ->
  JsString.scan p b1 skip s1 = JsString.scan p b2 skip s2.
Proof.
  induction s1 as [|c1 r1 IH]; intros s2 b1 b2 skip Hs Hb.
  - destruct s2 as [|c2 r2]; [|discriminate].
    cbn [JsString.scan]. unfold JsString.match_at, JsString.boundary.
    rewrite Hb. now rewrite (literal_fold_case p "" "" b1 b2 eq_refl Hb).
  - destruct s2 as [|c2 r2]; [discriminate|].
    pose proof Hs as Hs'. cbn in Hs'. injection Hs' as Hc Hr.
    assert (Hw : JsString.opt_word (Some c1) = JsString.opt_word (Some c2))
      by (cbn; now apply canonicalize_eq_word).
    cbn [JsString.scan]. destruct skip as [|k]; [|now apply IH].
    unfold JsString.match_at, JsString.boundary.
    rewrite Hb, (fold_case_head _ _ Hs), (literal_fold_case p _ _ b1 b2 Hs Hb).
    destruct (_ && _); [f_equal|]; now apply IH.
Qed.

Lemma literal_fold_case_phrase p1 : forall p2 s b,
  SpecFiller.fold_case p1 = SpecFiller.fold_case p2 ->
  JsString.literal_then_boundary p1 s b = JsString.literal_then_boundary p2 s b.
Proof.
  induction p1 as [|c1 p1 IH]; intros p2 s b Hp;
    destruct p2 as [|c2 p2]; cbn in Hp; try discriminate; [reflexivity|].
  injection Hp as Hc Hr. cbn [JsString.literal_then_boundary].
  destruct s as [|c r]; [reflexivity|]. rewrite Hc.
  destruct (Ascii.eqb _ _); [|reflexivity]. now apply IH.
Qed.

Lemma fold_case_length p1 : forall p2,
  SpecFiller.fold_case p1 = SpecFiller.fold_case p2 ->
  String.length p1 = String.length p2.
Proof.
  induction p1 as [|c1 p1 IH]; intros [|c2 p2] H; cbn in H; try discriminate;
    [reflexivity|].
  injection H as _ Hr. cbn. f_equal. now apply IH.
Qed.

Lemma scan_fold_case_phrase p1 p2 s :
  SpecFiller.fold_case p1 = SpecFiller.fold_case p2 ->
  forall b skip, JsString.scan p1 b skip s = JsString.scan p2 b skip s.
Proof.
  intros Hp. induction s as [|c r IH]; intros b skip.
  - cbn [JsString.scan]. unfold JsString.match_at.
    now rewrite (literal_fold_case_phrase p1 p2 _ _ Hp).
  - cbn [JsString.scan]. destruct skip as [|k]; [|apply IH].
    unfold JsString.match_at.
    rewrite (literal_fold_case_phrase p1 p2 _ _ Hp), (fold_case_length p1 p2 Hp).
    destruct (_ && _); [f_equal|]; apply IH.
Qed.

Lemma literal_char_canonicalize c :
  literal_char (JsString.canonicalize c) = literal_char c.
Proof. destruct c as [[] [] [] [] [] [] [] []]; reflexivity. Qed.

Lemma literal_phrase_fold_case p1 : forall p2,
  SpecFiller.fold_case p1 = SpecFiller.fold_case p2 ->
  literal_phrase p1 = literal_phrase p2.
Proof.
  unfold literal_phrase.
  induction p1 as [|c1 p1 IH]; intros [|c2 p2] H; cbn in H; try discriminate;
    [reflexivity|].
  injection H as Hc Hr. cbn [all_chars]. rewrite (IH p2 Hr). f_equal.
  now rewrite <- (literal_char_canonicalize c1), Hc, literal_char_canonicalize.
Qed.

Lemma default_fillerWords_literal :
  forallb literal_phrase default_fillerWords = true.
Proof. reflexivity. Qed.

(** X8. Filler matching ignores the case of the letters on both sides, for
    phrases made of letters, digits and spaces (the phrases whose pattern is
    the phrase itself, as the default ones are): two spellings of such a
    phrase that differ only in case count the same in two fragments that
    differ only in the case of their letters; so with the default phrases
    two such fragments add the same filler count. *)
Theorem filler_matching_ignores_case (p1 p2 t1 t2 : string) :
  literal_phrase p1 = true ->
  SpecFiller.fold_case p1 = SpecFiller.fold_case p2 ->
  SpecFiller.fold_case t1 = SpecFiller.fold_case t2 ->
  literal_phrase p2 = true /\
  JsString.match_count p1 t1 = JsString.match_count p2 t2 /\
  (forall s now1 now2,
     fillerWords s = default_fillerWords ->
     fillerWordCount (state_after (_processTranscript t1 now1 s))
     = fillerWordCount (state_after (_processTranscript t2 now2 s))).
Proof.
  intros Hl Hp Ht. split; [|split].
  - now rewrite <- (literal_phrase_fold_case p1 p2 Hp).
  - unfold JsString.match_count.
    rewrite (scan_fold_case_phrase p1 p2 t1 Hp). now apply scan_fold_case.
  - intros s now1 now2 Hf. rewrite !_processTranscript_eq.
    unfold state_after. cbn [fst snd accounted fillerWordCount].
    rewrite !add_filler_total. f_equal. unfold filler_matches. f_equal.
    apply map_ext. intros p. unfold JsString.match_count.
    now apply scan_fold_case.
Qed.

Lemma filler_matching_ignores_case_witness :
  JsString.match_count "Like" "UM, I LIKE it. Like, a lot"
  = JsString.match_count "like" "um, i like it. like, a lot".
Proof.
  exact (proj1 (proj2 (filler_matching_ignores_case
                         "Like" "like" "UM, I LIKE it. Like, a lot"
                         "um, i like it. like, a lot" eq_refl eq_refl eq_refl))).
Defined.

(** ** The pace in a snapshot *)

Lemma elapsed_minutes_zero start now :
  Qeq_bool (elapsed_minutes start now) 0 = (now - default 0%Z start =? 0)%Z.
Proof.
  unfold elapsed_minutes. generalize (now - default 0 start)%Z as d. intros d.
  destruct d; reflexivity.
Qed.

(** X9. The words per minute of a snapshot are a number exactly when the
    clock has moved since the start time ([null] counting as 0): when it has
    not, the division by the elapsed time gives [NaN] for a word count of 0
    and [Infinity] otherwise, and the rounding keeps it; the duration in
    seconds is always a number, 0 in that case. *)
Theorem wpm_needs_elapsed_time (s : State) (now : Z) :
  let a := snapshot s now in
  (if (elapsed_ms s now =? 0)%Z
   then Analytics.wpm a = (if wordCount s =? 0 then NaN else Infinity false) /\
        Analytics.duration a = Finite 0
   else exists q, Analytics.wpm a = Finite q) /\
  (exists q, Analytics.duration a = Finite q) /\
  Analytics.fillerWordCount a = fillerWordCount s.
Proof.
  cbn zeta. unfold snapshot, elapsed_ms. cbn [Analytics.wpm Analytics.duration
    Analytics.fillerWordCount].
  split; [|split; [eexists; reflexivity | reflexivity]].
  unfold JsNumber.round, JsNumber.div. rewrite !elapsed_minutes_zero.
  destruct (now - default 0 (startTime s) =? 0)%Z eqn:E.
  - split.
    + destruct (wordCount s) as [|n]; reflexivity.
    + unfold elapsed_minutes. apply Z.eqb_eq in E. rewrite E. reflexivity.
  - eexists. reflexivity.
Qed.

Example wpm_same_millisecond :
  analytics_updates
    (snd (run [CallSetAnalyticsUpdateCallback (Some 1);
               CallStart Accepts 1000%Z;
               EngineResult {| resultIndex := 0; results := [final "hello there"] |}
                            (fun _ => 1000%Z)] fresh))
  = [({| Analytics.fillerWordCount := 0;
         Analytics.vocabularyDiversity := Finite (2 # 2);
         Analytics.wpm := Infinity false;
         Analytics.duration := Finite 0 |}, false)].
Proof. vm_compute. reflexivity. Qed.

(** ** An object without recognition, under all calls and events *)

Lemma run_unsupported_state es : forall t a,
  run es (Unsupported t a)
  = (Unsupported (transcript_callback_after es t) (analytics_callback_after es a), []).
Proof.
  induction es as [|e es IH]; intros t a; [reflexivity|].
  cbn [run transcript_callback_after analytics_callback_after foldl].
  destruct e as [r n|r|cb|cb|ev n|er r|r n]; cbn [step start stop on_supported
    state_of trace_of fst snd setTranscriptUpdateCallback setAnalyticsUpdateCallback];
    rewrite IH; reflexivity.
Qed.

(** X10. An object built in a browser without recognition logs one error at
    construction and is inert for good: whatever calls and events follow, it
    performs no effect at all (no engine request, no notification, no
    console output); the setters still store the callbacks, which are never
    called. *)
Theorem unsupported_object_is_inert (w : Window) (es : list Event) :
  hasSpeechRecognition w = false ->
  hasWebkitSpeechRecognition w = false ->
  snd (constructor w)
  = [ConsoleError "Speech recognition not supported in this browser" ""] /\
  run es (fst (constructor w))
  = (Unsupported (transcript_callback_after es None)
                 (analytics_callback_after es None), []).
Proof.
  intros H1 H2. unfold constructor. rewrite H1, H2. cbn [negb andb fst snd].
  split; [reflexivity | apply run_unsupported_state].
Qed.

Lemma unsupported_object_is_inert_witness :
  run [CallSetAnalyticsUpdateCallback (Some 3); CallStart Accepts 1000%Z;
       EngineResult {| resultIndex := 0; results := [final "hello"] |}
                    (fun _ => 2000%Z);
       CallStop Accepts; EngineEnd Accepts 3000%Z]
      (fst (constructor no_browser_support))
  = (Unsupported None (Some 3), []).
Proof.
  exact (proj2 (unsupported_object_is_inert no_browser_support
                  [CallSetAnalyticsUpdateCallback (Some 3); CallStart Accepts 1000%Z;
                   EngineResult {| resultIndex := 0; results := [final "hello"] |}
                                (fun _ => 2000%Z);
                   CallStop Accepts; EngineEnd Accepts 3000%Z]
                  eq_refl eq_refl)).
Defined.

(** ** Restarts *)

(** X11. While the active flag is set, every end event of the engine sends
    one start request, without limit and without delay, and changes no state
    variable; a start request that throws there is not caught: the listener
    ends with the exception, and the next end event tries again. *)
Theorem restart_on_every_end (s : State) (ends : list (EngineReply * Z)) :
  isRecording s = true ->
  run (end_events ends) (Supported s)
  = (Supported s, repeat EngineStart (length ends)) /\
  (forall error now,
     completion_of (step (EngineEnd (Throws error) now) (Supported s))
     = Throw error).
Proof.
  intros Hrec. split.
  - induction ends as [|[r n] ends IH]; [reflexivity|].
    cbn [end_events map run fst snd length repeat]. fold (end_events ends).
    unfold step, on_supported, state_of, trace_of.
    rewrite (onend_recording s r n Hrec). cbn [fst snd]. now rewrite IH.
  - intros error now. unfold step, on_supported, completion_of.
    now rewrite (onend_recording s (Throws error) now Hrec).
Qed.

Lemma restart_on_every_end_witness :
  run (end_events [(Accepts, 1500%Z); (Throws "NotAllowedError", 1600%Z);
                   (Accepts, 1700%Z)])
      (Supported (set_isRecording true initial_state))
  = (Supported (set_isRecording true initial_state),
     [EngineStart; EngineStart; EngineStart]).
Proof.
  exact (proj1 (restart_on_every_end (set_isRecording true initial_state)
                  [(Accepts, 1500%Z); (Throws "NotAllowedError", 1600%Z);
                   (Accepts, 1700%Z)] eq_refl)).
Defined.

(** ** The filler count of a session *)

Lemma sum_list_append (l k : list nat) :
  sum_list (l ++ k) = sum_list l + sum_list k.
Proof.
  induction l as [|x l IH]; [reflexivity|]. cbn [app sum_list].
  change (sum_list (x :: l ++ k)) with (x + sum_list (l ++ k)).
  change (sum_list (x :: l)) with (x + sum_list l). rewrite IH. lia.
Qed.

Lemma accounted_all_fillers ts : forall s,
  fillerWords (accounted_all ts s) = fillerWords s /\
  fillerWordCount (accounted_all ts s)
  = fillerWordCount s + sum_list (map (filler_matches (fillerWords s)) ts).
Proof.
  induction ts as [|t ts IH]; intros s; cbn [accounted_all foldl map sum_list].
  - split; [reflexivity | lia].
  - fold (accounted_all ts (accounted t s)).
    destruct (IH (accounted t s)) as [H1 H2]. rewrite H1, H2.
    cbn [accounted fillerWords fillerWordCount]. rewrite add_filler_total.
    split; [reflexivity|]. unfold id. lia.
Qed.

(** X12. At every point of a session the filler phrases are the nine
    default ones, and the filler count is the total, over the final
    fragments accounted since the session started, of the matches of each
    phrase in each fragment taken on its own; it is what every snapshot
    reports. *)
Theorem filler_count_of_session (es : list Event) :
  exists s,
    fst (run es fresh) = Supported s /\
    fillerWords s = default_fillerWords /\
    fillerWordCount s
    = sum_list (map (filler_matches default_fillerWords) (fragments_since_start es)) /\
    (forall now, Analytics.fillerWordCount (snapshot s now) = fillerWordCount s).
Proof.
  exists (states_after es initial_state).
  split; [apply (run_supported es initial_state)|].
  assert (G : forall h s,
            fillerWords s = default_fillerWords ->
            fillerWordCount s = sum_list (map (filler_matches default_fillerWords) h) ->
            fillerWords (states_after es s) = default_fillerWords /\
            fillerWordCount (states_after es s)
            = sum_list (map (filler_matches default_fillerWords)
                            (foldl history_step h es))).
  { induction es as [|e es IH]; intros h s Hf Hc; [split; assumption|].
    cbn [states_after foldl]. apply IH.
    - destruct e as [[|er] n|r|cb|cb|ev n|er r|r n]; try exact Hf.
      cbn [next_state]. unfold after_batch. cbn [set_transcriptText fillerWords].
      now rewrite (proj1 (accounted_all_fillers (batch_finals ev) s)).
    - destruct e as [[|er] n|r|cb|cb|ev n|er r|r n]; try exact Hc; [reflexivity|].
      cbn [next_state history_step]. unfold after_batch.
      cbn [set_transcriptText fillerWordCount].
      rewrite (proj2 (accounted_all_fillers (batch_finals ev) s)), Hf, Hc.
      now rewrite map_app, sum_list_append. }
  destruct (G [] initial_state eq_refl eq_refl) as [H1 H2].
  split; [exact H1|]. split; [exact H2 | reflexivity].
Qed.

(** ** The scan of the pattern and the occurrences of a phrase *)

Lemma scan_matching_positions p :
  (forall c r before,
     JsString.match_at p (String c r) before = true ->
     quiet p (Some c) (Nat.pred (String.length p)) r) ->
  forall s before skip,
    quiet p before skip s ->
    JsString.scan p before skip s = matching_positions p before s.
Proof.
  intros Hq. induction s as [|c r IH]; intros before skip Hs.
  - cbn [JsString.scan matching_positions]. destruct skip as [|k].
    + cbn [Nat.eqb andb]. destruct (JsString.match_at p "" before); reflexivity.
    + cbn [quiet] in Hs. destruct Hs as [Hm _]. rewrite Hm. reflexivity.
  - cbn [JsString.scan matching_positions]. destruct skip as [|k].
    + destruct (JsString.match_at p (String c r) before) eqn:E.
      * cbn. f_equal. apply IH, (Hq c r before E).
      * cbn. apply IH. exact I.
    + cbn [quiet] in Hs. destruct Hs as [Hm Hr]. rewrite Hm. cbn. now apply IH.
Qed.

Lemma literal_quiet p0 pt : forall q pb r b,
  JsString.is_word p0 = true ->
  no_restart_from p0 pb q = true ->
  JsString.canonicalize b = JsString.canonicalize pb ->
  JsString.literal_then_boundary q r (Some b) = true ->
  quiet (String p0 pt) (Some b) (String.length q) r.
Proof.
  induction q as [|qc q IH]; intros pb r b Hw Hn Hb Hl; [exact I|].
  cbn [JsString.literal_then_boundary] in Hl.
  destruct r as [|c r]; [discriminate|].
  destruct (Ascii.eqb (JsString.canonicalize qc) (JsString.canonicalize c)) eqn:Ec;
    [|discriminate].
  apply Ascii.eqb_eq in Ec.
  cbn [no_restart_from] in Hn. apply andb_true_iff in Hn as [Hn1 Hn2].
  cbn [String.length quiet]. split.
  - unfold JsString.match_at, JsString.boundary.
    cbn [JsString.opt_word JsString.head JsString.literal_then_boundary].
    destruct (Ascii.eqb (JsString.canonicalize p0) (JsString.canonicalize c)) eqn:E0;
      [|apply andb_false_r].
    apply Ascii.eqb_eq in E0.
    assert (Hc : JsString.is_word c = true)
      by (rewrite <- (canonicalize_eq_word p0 c E0); exact Hw).
    apply orb_true_iff in Hn1 as [Hpb|Hne].
    + rewrite (canonicalize_eq_word b pb Hb), Hpb, Hc. reflexivity.
    + rewrite E0, <- Ec, Ascii.eqb_refl in Hne. discriminate.
  - apply (IH qc); auto.
Qed.

Lemma whole_word_phrase_quiet p :
  whole_word_phrase p = true ->
  forall c r before,
    JsString.match_at p (String c r) before = true ->
    quiet p (Some c) (Nat.pred (String.length p)) r.
Proof.
  destruct p as [|p0 pt]; [discriminate|]. cbn [whole_word_phrase].
  intros H c r before Hm.
  apply andb_true_iff in H as [H Hn]. apply andb_true_iff in H as [Hw _].
  unfold JsString.match_at in Hm. apply andb_true_iff in Hm as [_ Hl].
  cbn [JsString.literal_then_boundary] in Hl.
  destruct (Ascii.eqb (JsString.canonicalize p0) (JsString.canonicalize c)) eqn:E0;
    [|discriminate].
  apply Ascii.eqb_eq in E0. cbn [String.length Nat.pred].
  apply (literal_quiet p0 pt pt p0 r c); auto.
Qed.

Lemma match_count_positions p text :
  whole_word_phrase p = true ->
  JsString.match_count p text = matching_positions p None text.
Proof.
  intros H. unfold JsString.match_count.
  apply scan_matching_positions; [now apply whole_word_phrase_quiet | exact I].
Qed.

Lemma last_char_cons a b c q : last_char a (String c q) = last_char b (String c q).
Proof. reflexivity. Qed.

Lemma get_zero_head s : String.get 0 s = JsString.head s.
Proof. now destruct s. Qed.

Lemma literal_as_occurrence : forall q s bc,
  JsString.is_word (last_char bc q) = true ->
  JsString.literal_then_boundary q s (Some bc)
  = (String.length q <=? String.length s)
    && String.eqb (SpecFiller.fold_case (String.substring 0 (String.length q) s))
                  (SpecFiller.fold_case q)
    && negb (JsString.opt_word (String.get (String.length q) s)).
Proof.
  induction q as [|qc q IH]; intros s bc Hl.
  - cbn [JsString.literal_then_boundary String.length]. unfold JsString.boundary.
    cbn [last_char] in Hl. cbn [JsString.opt_word]. rewrite Hl, get_zero_head.
    destruct s; reflexivity.
  - cbn [JsString.literal_then_boundary String.length].
    destruct s as [|c r]; [reflexivity|].
    cbn [String.length String.substring String.get SpecFiller.fold_case String.eqb].
    change (S (String.length q) <=? S (String.length r))
      with (String.length q <=? String.length r).
    rewrite (Ascii.eqb_sym (JsString.canonicalize c)).
    destruct (Ascii.eqb (JsString.canonicalize qc) (JsString.canonicalize c)) eqn:Ec.
    + rewrite IH; [reflexivity|].
      destruct q as [|q0 q']; [|exact Hl].
      cbn [last_char] in *. apply Ascii.eqb_eq in Ec.
      now rewrite <- (canonicalize_eq_word qc c Ec).
    + now rewrite andb_false_r.
Qed.

Lemma match_at_as_occurrence p s before :
  whole_word_phrase p = true ->
  JsString.match_at p s before = occurs_after before p s 0.
Proof.
  destruct p as [|p0 pt]; [discriminate|]. cbn [whole_word_phrase].
  intros H. apply andb_true_iff in H as [H _]. apply andb_true_iff in H as [Hw Hl].
  unfold JsString.match_at, occurs_after, SpecFiller.word_at.
  cbn [Nat.eqb Nat.add].
  destruct s as [|c r]; [cbn; now rewrite andb_false_r|].
  cbn [JsString.literal_then_boundary String.length String.substring String.get
       SpecFiller.fold_case String.eqb JsString.head].
  change (S (String.length pt) <=? S (String.length r))
    with (String.length pt <=? String.length r).
  rewrite (Ascii.eqb_sym (JsString.canonicalize c)).
  destruct (Ascii.eqb (JsString.canonicalize p0) (JsString.canonicalize c)) eqn:Ec.
  - apply Ascii.eqb_eq in Ec.
    assert (Hc : JsString.is_word c = true)
      by (rewrite <- (canonicalize_eq_word p0 c Ec); exact Hw).
    rewrite literal_as_occurrence.
    + unfold JsString.boundary. cbn [JsString.opt_word]. rewrite Hc.
      destruct (JsString.opt_word before), (String.length pt <=? String.length r),
        (String.eqb _ _), (JsString.opt_word (String.get _ r)); reflexivity.
    + destruct pt as [|q0 q']; [exact Hc | exact Hl].
  - now rewrite !andb_false_r.
Qed.

Lemma matching_positions_occurrences p :
  whole_word_phrase p = true ->
  forall s before, matching_positions p before s = occurrences_after before p s.
Proof.
  intros H. induction s as [|c r IH]; intros before;
    cbn [matching_positions occurrences_after];
    rewrite (match_at_as_occurrence p _ before H); [reflexivity|].
  now rewrite IH.
Qed.

Lemma occurs_after_shift b p c r i :
  occurs_after b p (String c r) (S i) = occurs_after (Some c) p r i.
Proof.
  unfold occurs_after, SpecFiller.word_at.
  cbn [String.length String.substring Nat.add Nat.eqb String.get].
  change (S (i + String.length p) <=? S (String.length r))
    with (i + String.length p <=? String.length r).
  replace (S i - 1) with i by lia.
  destruct i as [|i]; [reflexivity|].
  cbn [Nat.eqb]. replace (S i - 1) with i by lia. reflexivity.
Qed.

Lemma filter_map_length {A B} (f : B -> bool) (g : A -> B) l :
  length (List.filter f (map g l)) = length (List.filter (fun x => f (g x)) l).
Proof.
  induction l as [|x l IH]; [reflexivity|]. cbn [map List.filter].
  destruct (f (g x)); cbn [length]; now rewrite IH.
Qed.

Lemma occurrences_after_count p : forall s before,
  length (List.filter (occurs_after before p s) (seq 0 (S (String.length s))))
  = occurrences_after before p s.
Proof.
  induction s as [|c r IH]; intros before.
  - cbn [String.length seq List.filter occurrences_after].
    destruct (occurs_after before p "" 0); reflexivity.
  - cbn [String.length occurrences_after].
    change (seq 0 (S (S (String.length r))))
      with (0 :: seq 1 (S (String.length r))).
    rewrite <- seq_shift. cbn [List.filter].
    assert (Hr : length (List.filter (occurs_after before p (String c r))
                           (map S (seq 0 (S (String.length r)))))
                 = occurrences_after (Some c) p r).
    { rewrite filter_map_length, <- IH. f_equal.
      apply List.filter_ext. intros i. apply occurs_after_shift. }
    destruct (occurs_after before p (String c r) 0); cbn [length]; now rewrite Hr.
Qed.

Lemma occurs_at_after p text i :
  SpecFiller.occurs_at p text i = occurs_after None p text i.
Proof.
  unfold SpecFiller.occurs_at, occurs_after.
  destruct (i =? 0); reflexivity.
Qed.

Lemma whole_word_occurrences_after p text :
  SpecFiller.whole_word_occurrences p text = occurrences_after None p text.
Proof.
  unfold SpecFiller.whole_word_occurrences. rewrite <- occurrences_after_count.
  f_equal. apply List.filter_ext. intros i. apply occurs_at_after.
Qed.

(** X13. For a phrase made of letters, digits and spaces (whose pattern is
    the phrase itself) that begins and ends with a letter or digit and
    cannot overlap itself, which each of the nine default phrases is, the
    matches the pattern scan counts in any text are exactly the positions
    where the text reads as the phrase, whatever the case, with no word
    character just before or just after; so every final fragment adds to
    the filler count the number of whole-word occurrences of the default
    phrases in it. *)
Theorem filler_matches_are_whole_word_occurrences (p text : string) :
  literal_phrase p = true ->
  whole_word_phrase p = true ->
  JsString.match_count p text = SpecFiller.whole_word_occurrences p text /\
  forallb (fun q => literal_phrase q && whole_word_phrase q) default_fillerWords
  = true /\
  filler_matches default_fillerWords text
  = SpecFiller.filler_total default_fillerWords text /\
  (forall s now,
     fillerWords s = default_fillerWords ->
     fillerWordCount (state_after (_processTranscript text now s))
     = fillerWordCount s + SpecFiller.filler_total default_fillerWords text).
Proof.
  intros _ Hp.
  assert (Hm : forall q t, whole_word_phrase q = true ->
               JsString.match_count q t = SpecFiller.whole_word_occurrences q t).
  { intros q t Hq.
    now rewrite match_count_positions, matching_positions_occurrences,
      whole_word_occurrences_after. }
  assert (Hd : forallb (fun q => literal_phrase q && whole_word_phrase q)
                       default_fillerWords = true) by reflexivity.
  assert (Ht : filler_matches default_fillerWords text
               = SpecFiller.filler_total default_fillerWords text).
  { unfold filler_matches, SpecFiller.filler_total. f_equal.
    apply map_ext_in. intros q Hq. apply Hm.
    pose proof (proj1 (forallb_forall _ _) Hd q Hq) as Hq'.
    now apply andb_true_iff in Hq' as [_ Hq']. }
  split; [now apply Hm|]. split; [exact Hd|]. split; [exact Ht|].
  intros s now Hf. rewrite _processTranscript_eq.
  unfold state_after. cbn [fst snd accounted fillerWordCount].
  now rewrite add_filler_total, Hf, Ht.
Qed.

Lemma filler_matches_are_whole_word_occurrences_witness :
  literal_phrase "you know" = true /\
  whole_word_phrase "you know" = true /\
  JsString.match_count "you know" "You know, YOU KNOW you knows"
  = SpecFiller.whole_word_occurrences "you know" "You know, YOU KNOW you knows".
Proof.
  split; [reflexivity|]. split; [reflexivity|].
  exact (proj1 (filler_matches_are_whole_word_occurrences
                  "you know" "You know, YOU KNOW you knows" eq_refl eq_refl)).
Defined.

(** A phrase that can overlap itself is counted once where it occurs
    twice: the scan resumes after the end of a match. *)
Example overlapping_phrase_counted_once :
  whole_word_phrase "a a" = false /\
  JsString.match_count "a a" "a a a" = 1 /\
  SpecFiller.whole_word_occurrences "a a" "a a a" = 2.
Proof. repeat split. Qed.

(** ** The lifecycle as a state machine *)

Lemma engine_requests_loop rs : forall i now s,
  engine_requests (loop_trace rs i now s) = [].
Proof.
  induction rs as [|r rs IH]; intros i now s; cbn [loop_trace]; [reflexivity|].
  destruct (isFinal r); [|apply IH].
  unfold engine_requests. rewrite List.filter_app.
  fold (engine_requests (loop_trace rs (S i) now (accounted (transcript r) s))).
  rewrite IH, app_nil_r. unfold interim_notification.
  destruct (truthy_time _); [|reflexivity].
  now destruct (onAnalyticsUpdate _).
Qed.

Lemma step_requests e s :
  engine_requests (trace_of (step e (Supported s)))
  = requests_on (isRecording s) e.
Proof.
  destruct e as [r n|r|cb|cb|ev n|er r|r n]; unfold step, trace_of;
    try reflexivity; try (destruct r; reflexivity).
  - unfold on_supported. rewrite onresult_eq. cbn [snd].
    unfold engine_requests. rewrite List.filter_app.
    fold (engine_requests (loop_trace (batch ev) (resultIndex ev) n s)).
    rewrite engine_requests_loop. unfold transcript_notification.
    now destruct (onTranscriptUpdate _).
  - unfold on_supported. cbn [requests_on]. destruct (isRecording s) eqn:Hrec.
    + now rewrite (onend_recording s r n Hrec).
    + rewrite (onend_stopped s r n Hrec). cbn [snd].
      now destruct (onAnalyticsUpdate s).
Qed.

Lemma next_state_machine e s :
  isRecording (next_state e s) = flag_after (isRecording s) e /\
  startTime (next_state e s) = start_time_after (startTime s) e.
Proof.
  destruct e as [[|er] n|r|cb|cb|ev n|er r|r n]; try (split; reflexivity).
  apply after_batch_frame.
Qed.

(** X14. The lifecycle is a two-state machine on the active flag: [start()]
    sets it (accepted or not), [stop()] and an error event clear it, nothing
    else touches it; the start time is the clock of the last accepted
    [start()].  The engine gets one start request per [start()] call and per
    end event that arrives while the flag is set, one stop request per
    [stop()] call and per error event, in that order, and no other
    request, whatever the flag was when [start()] or [stop()] was
    called. *)
Theorem lifecycle_state_machine (s : State) (es : list Event) :
  isListening (fst (run es (Supported s)))
  = VBool (foldl flag_after (isRecording s) es) /\
  (exists s', fst (run es (Supported s)) = Supported s' /\
     startTime s' = foldl start_time_after (startTime s) es) /\
  engine_requests (snd (run es (Supported s))) = requests_of (isRecording s) es.
Proof.
  revert s. induction es as [|e es IH]; intros s.
  - cbn. split; [reflexivity|]. split; [|reflexivity]. now exists s.
  - cbn [run fst snd foldl requests_of]. rewrite step_supported.
    destruct (IH (next_state e s)) as (H1 & (s' & H2 & H3) & H4).
    destruct (next_state_machine e s) as [Hf Ht].
    rewrite <- Hf, <- Ht. split; [exact H1|]. split; [now exists s'|].
    unfold engine_requests in *. rewrite List.filter_app, H4.
    f_equal. apply step_requests.
Qed.

Example lifecycle_requests_sample :
  engine_requests
    (snd (run [CallStart Accepts 1000%Z; EngineEnd Accepts 2000%Z;
               CallStart (Throws "InvalidStateError") 2500%Z;
               EngineError "no-speech" Accepts; EngineEnd Accepts 3000%Z;
               CallStop Accepts] fresh))
  = [EngineStart; EngineStart; EngineStart; EngineStop; EngineStop].
Proof. reflexivity. Qed.

(** * Vocabulary diversity against the tokens of the specification *)

(** ** The pieces of the program are the tokens *)











(** ** The normal form of a token *)


















(** The tokens and the normal forms of sample fragments. *)
Example tokens_sample :
  SpecVocabulary.tokens "  The cat,  the CAT! -- " = ["The"; "cat,"; "the"; "CAT!"; "--"] /\
  map SpecVocabulary.normalize (SpecVocabulary.tokens "  The cat,  the CAT! -- ")
  = ["the"; "cat"; "the"; "cat"; ""] /\
  SpecVocabulary.blank "   " = true.
Proof. repeat split. Qed.
